(** * Screen Coordinate Tool: the capture overlay of [main.py]

    A shallow embedding of the overlay window ([OverlayWindow]), of the
    item classes it creates and of the part of [MainWindow] it calls,
    then of the history tree's clean-up after a drop, of the rename
    delegate and of the data file, followed by the properties of the
    capture session and of these parts. *)

From Stdlib Require Import ZArith QArith Qround Lia Bool.
From Stdlib Require Import Floats.SpecFloat.
From stdpp Require Import base option list strings gmap pretty.

Local Open Scope Z_scope.

(** ** Python numbers

    Python's [int] is unbounded and its [float] is IEEE 754 binary64.
    Floats are the standard library's [spec_float] at precision 53 and
    maximal exponent 1024; every operation below is the correctly
    rounded (nearest, ties to even) one. *)

Module Py.

Definition prec : Z := 53.
Definition emax : Z := 1024.

Inductive Num :=
  | PInt (n : Z)
  | PFloat (f : spec_float).

(** [float(n)]: the nearest binary64 value. CPython raises OverflowError
    for an integer beyond the binary64 range where this conversion gives
    an infinity; the integers of this program are differences, products
    and sums of two squares of QPoint coordinates (C ints), far below
    that range. *)
Definition of_int (n : Z) : spec_float := binary_normalize prec emax n 0 false.

Definition to_float (a : Num) : spec_float :=
  match a with
  | PInt n => of_int n
  | PFloat f => f
  end.

Definition add (a b : Num) : Num :=
  match a, b with
  | PInt m, PInt n => PInt (m + n)
  | _, _ => PFloat (SFadd prec emax (to_float a) (to_float b))
  end.

Definition sub (a b : Num) : Num :=
  match a, b with
  | PInt m, PInt n => PInt (m - n)
  | _, _ => PFloat (SFsub prec emax (to_float a) (to_float b))
  end.

Definition mul (a b : Num) : Num :=
  match a, b with
  | PInt m, PInt n => PInt (m * n)
  | _, _ => PFloat (SFmul prec emax (to_float a) (to_float b))
  end.

(** [a ** 2]; on a float, the correctly rounded square. *)
Definition sq (a : Num) : Num :=
  match a with
  | PInt n => PInt (n * n)
  | PFloat f => PFloat (SFmul prec emax f f)
  end.

(** An integer as an unrounded binary number, for the integer true
    division, which rounds the exact quotient once. *)
Definition exact_int (n : Z) : spec_float :=
  match n with
  | Z0 => S754_zero false
  | Zpos p => S754_finite false p 0
  | Zneg p => S754_finite true p 0
  end.

Definition is_zero (a : Num) : bool :=
  match a with
  | PInt n => n =? 0
  | PFloat (S754_zero _) => true
  | PFloat _ => false
  end.

(** [a / b]; [None] is ZeroDivisionError. *)
Definition truediv (a b : Num) : option Num :=
  if is_zero b then None
  else match a, b with
       | PInt m, PInt n => Some (PFloat (SFdiv prec emax (exact_int m) (exact_int n)))
       | _, _ => Some (PFloat (SFdiv prec emax (to_float a) (to_float b)))
       end.

Definition is_negative (f : spec_float) : bool :=
  match f with
  | S754_finite true _ _ | S754_infinity true => true
  | _ => false
  end.

(** [math.sqrt(a)]; [None] is ValueError (math domain error). *)
Definition sqrt (a : Num) : option Num :=
  let f := to_float a in
  if is_negative f then None else Some (PFloat (SFsqrt prec emax f)).

(** *** Values and comparison

    Python compares numbers by value, also an [int] with a [float];
    a NaN compares false with everything. *)

Inductive xval :=
  | XNaN
  | XNegInf
  | XFin (q : Q)
  | XPosInf.

(** [n * 2^e] *)
Definition dyadic (n e : Z) : Q :=
  match e with
  | Z0 => n # 1
  | Zpos p => (n * Z.pow_pos 2 p) # 1
  | Zneg p => n # (Pos.pow 2 p)
  end.

Definition float_value (f : spec_float) : xval :=
  match f with
  | S754_zero _ => XFin 0
  | S754_infinity s => if s then XNegInf else XPosInf
  | S754_nan => XNaN
  | S754_finite s m e => XFin (dyadic (cond_Zopp s (Zpos m)) e)
  end.

Definition value (a : Num) : xval :=
  match a with
  | PInt n => XFin (n # 1)
  | PFloat f => float_value f
  end.

Definition xcompare (a b : xval) : option comparison :=
  match a, b with
  | XNaN, _ | _, XNaN => None
  | XNegInf, XNegInf => Some Eq
  | XNegInf, _ => Some Lt
  | _, XNegInf => Some Gt
  | XPosInf, XPosInf => Some Eq
  | XPosInf, _ => Some Gt
  | _, XPosInf => Some Lt
  | XFin p, XFin q => Some (p ?= q)%Q
  end.

(** [a < b] *)
Definition lt (a b : Num) : bool :=
  match xcompare (value a) (value b) with
  | Some Lt => true
  | _ => false
  end.

(** [a <= b] *)
Definition le (a b : Num) : bool :=
  match xcompare (value a) (value b) with
  | Some (Lt | Eq) => true
  | _ => false
  end.

(** [min(a, b)]: [b] replaces [a] only when [b < a]. *)
Definition min (a b : Num) : Num := if lt b a then b else a.

(** [max(a, b)]: [b] replaces [a] only when [b > a]. *)
Definition max (a b : Num) : Num := if lt a b then b else a.

(** [int(a)]: truncation toward zero; [None] is the ValueError of a NaN
    or the OverflowError of an infinity. *)
Definition to_int (a : Num) : option Z :=
  match a with
  | PInt n => Some n
  | PFloat (S754_zero _) => Some 0
  | PFloat (S754_finite s m e) =>
      Some (cond_Zopp s (match e with
                        | Z0 => Zpos m
                        | Zpos p => Zpos m * Z.pow_pos 2 p
                        | Zneg p => Zpos m / Z.pow_pos 2 p
                        end))
  | PFloat _ => None
  end.

End Py.

(** ** Qt values *)

(** [QPoint]: two C ints; Python reads them as [int]. A QPoint is false
    in a boolean context exactly when it is null, that is (0, 0). *)
Record QPoint := mkQPoint { px : Z; py : Z }.

Definition isNull (p : QPoint) : bool := (px p =? 0) && (py p =? 0).

Definition QPoint_eqb (p q : QPoint) : bool := (px p =? px q) && (py p =? py q).

Inductive MouseButton := LeftButton | RightButton | MiddleButton.

Inductive Key :=
  | Key_Shift | Key_E | Key_Escape | Key_Q | Key_Space | Key_H
  | Key_Delete | Key_R | Key_Other.

(** ** Captured items (lines 25-61)

    Items are Python objects: the overlay's session list and the tree
    widget of the main window hold references to the same objects, so
    the objects live in a store and are named by reference. *)

Definition ref := positive.

Record CoordinateItem := mkCoordinateItem {
  ci_x : Z;
  ci_y : Z;
  ci_name : string;
  ci_timestamp : string
}.

Record MeasurementItem := mkMeasurementItem {
  mi_x1 : Z; mi_y1 : Z;
  mi_x2 : Z; mi_y2 : Z;
  mi_distance : Py.Num;
  mi_name : string;
  mi_timestamp : string;
  mi_auto_aligned : bool
}.

Record FolderItem := mkFolderItem {
  fi_name : string;
  fi_timestamp : string;
  fi_items : list ref;
  fi_expanded : bool
}.

Inductive Item :=
  | ICoordinate (c : CoordinateItem)
  | IMeasurement (m : MeasurementItem)
  | IFolder (f : FolderItem).

(** [s or d] for an optional string: [None] and the empty string are
    false. *)
Definition str_or (s : option string) (d : string) : string :=
  match s with
  | None | Some EmptyString => d
  | Some s => s
  end.

(** [CoordinateItem.__init__]; [now] is [datetime.now().isoformat()]. *)
Definition CoordinateItem_init (x y : Z) (name timestamp : option string)
    (now : string) : CoordinateItem :=
  {| ci_x := x;
     ci_y := y;
     ci_name := str_or name ("Point (" +:+ pretty x +:+ ", " +:+ pretty y +:+ ")");
     ci_timestamp := str_or timestamp now |}.

(** [MeasurementItem.__init__]. The default name is only computed when
    [name] is false; its [int(distance)] can raise. *)
Definition MeasurementItem_init (x1 y1 x2 y2 : Z) (distance : Py.Num)
    (name timestamp : option string) (auto_aligned : bool)
    (now : string) : option MeasurementItem :=
  name' ← match name with
           | None | Some EmptyString =>
               n ← Py.to_int distance;
               Some ("Measurement " +:+ pretty n +:+ "px")
           | Some s => Some s
           end;
  Some {| mi_x1 := x1; mi_y1 := y1; mi_x2 := x2; mi_y2 := y2;
          mi_distance := distance;
          mi_name := name';
          mi_timestamp := str_or timestamp now;
          mi_auto_aligned := auto_aligned |}.

(** [item.name = s] *)
Definition set_name (s : string) (it : Item) : Item :=
  match it with
  | ICoordinate c =>
      ICoordinate {| ci_x := ci_x c; ci_y := ci_y c; ci_name := s;
                     ci_timestamp := ci_timestamp c |}
  | IMeasurement m =>
      IMeasurement {| mi_x1 := mi_x1 m; mi_y1 := mi_y1 m;
                      mi_x2 := mi_x2 m; mi_y2 := mi_y2 m;
                      mi_distance := mi_distance m; mi_name := s;
                      mi_timestamp := mi_timestamp m;
                      mi_auto_aligned := mi_auto_aligned m |}
  | IFolder f =>
      IFolder {| fi_name := s; fi_timestamp := fi_timestamp f;
                 fi_items := fi_items f; fi_expanded := fi_expanded f |}
  end.

(** The object store. A new object gets a reference no live object has. *)
Abbreviation Heap := (gmap ref Item).

Definition alloc (h : Heap) (it : Item) : ref * Heap :=
  let r := fresh (dom h) in (r, <[r := it]> h).

(** ** The main window's tree widget and data store (lines 66-131, 667-940)

    A [QTreeWidgetItem] carries the two column texts, the item object in
    its [Qt.UserRole] data, its expanded flag and its children. *)

#[warnings="-register-all"]
Inductive TreeItem :=
  | TreeNode (text0 text1 : string) (data : ref) (expanded : bool)
             (children : list TreeItem).

Definition ti_text0 (t : TreeItem) : string := let 'TreeNode s _ _ _ _ := t in s.
Definition ti_text1 (t : TreeItem) : string := let 'TreeNode _ s _ _ _ := t in s.
Definition ti_data (t : TreeItem) : ref := let 'TreeNode _ _ d _ _ := t in d.
Definition ti_children (t : TreeItem) : list TreeItem := let 'TreeNode _ _ _ _ c := t in c.

(** The main window as far as the overlay reaches it: the top-level
    items of [self.tree], [self.data_store.root_items] and whether the
    window is shown. *)
Record MainWindow := mkMainWindow {
  tree : list TreeItem;
  root_items : list ref;
  mw_visible : bool
}.

Definition prefix_coordinate : string := "📍 ".
Definition prefix_measurement : string := "📏 ".
Definition prefix_folder : string := "📁 ".

(** [s[len(p):] if s.startswith(p) else s] *)
Fixpoint strip_prefix (p s : string) : option string :=
  match p, s with
  | EmptyString, _ => Some s
  | String a p', String b s' => if Ascii.eqb a b then strip_prefix p' s' else None
  | String _ _, EmptyString => None
  end.

Definition strip (p s : string) : string := default s (strip_prefix p s).

(** The prefix loop of [_serialize_tree] (lines 85-89): the three
    prefixes are tried one after the other on the running text. *)
Definition clean_name (raw_text : string) : string :=
  strip prefix_folder (strip prefix_measurement (strip prefix_coordinate raw_text)).

Definition set_folder_view (expanded : bool) (s : string) (it : Item) : Item :=
  match it with
  | IFolder f =>
      IFolder {| fi_name := s; fi_timestamp := fi_timestamp f;
                 fi_items := fi_items f; fi_expanded := expanded |}
  | _ => it
  end.

Definition set_items (l : list ref) (it : Item) : Item :=
  match it with
  | IFolder f =>
      IFolder {| fi_name := fi_name f; fi_timestamp := fi_timestamp f;
                 fi_items := l; fi_expanded := fi_expanded f |}
  | _ => it
  end.

(** [DataStore._serialize_tree] on one child and, in [serialize_children],
    on the children of a parent: the objects are updated in place and
    the list of the children's objects is returned. *)
Fixpoint serialize_item (h : Heap) (t : TreeItem) : Heap * ref :=
  let 'TreeNode text0 _ data expanded children := t in
  let clean := clean_name text0 in
  match h !! data with
  | Some (IFolder _) =>
      let h1 := alter (set_folder_view expanded clean) data h in
      let '(h2, items) :=
        (fix serialize_children (h : Heap) (cs : list TreeItem) : Heap * list ref :=
           match cs with
           | [] => (h, [])
           | c :: cs' =>
               let '(h', r) := serialize_item h c in
               let '(h'', rs) := serialize_children h' cs' in
               (h'', r :: rs)
           end) h1 children in
      (alter (set_items items) data h2, data)
  | _ => (alter (set_name clean) data h, data)
  end.

Fixpoint _serialize_tree (h : Heap) (cs : list TreeItem) : Heap * list ref :=
  match cs with
  | [] => (h, [])
  | c :: cs' =>
      let '(h', r) := serialize_item h c in
      let '(h'', rs) := _serialize_tree h' cs' in
      (h'', r :: rs)
  end.

(** [MainWindow.save_data], that is [DataStore.save_from_tree]: the data
    model is rebuilt from the tree. Writing the JSON file
    ([_save_to_disk], which catches its own errors) is outside the
    model. The [itemChanged] signal also runs [save_data] whenever a
    text of an item in the tree is set; each host operation below ends
    with its own [save_data] on the final tree, so those runs are not
    listed. *)
Definition save_data (h : Heap) (mw : MainWindow) : Heap * MainWindow :=
  let '(h', items) := _serialize_tree h (tree mw) in
  (h', {| tree := tree mw; root_items := items; mw_visible := mw_visible mw |}).

Definition set_tree (tr : list TreeItem) (mw : MainWindow) : MainWindow :=
  {| tree := tr; root_items := root_items mw; mw_visible := mw_visible mw |}.

(** [create_tree_item] for the items the overlay hands over: it only
    ever passes the CoordinateItem or MeasurementItem it has just made.
    The FolderItem branch (lines 832-844), which builds the children of a
    stored folder, is not part of the model and is [None] here; [None]
    is otherwise the exception of [int(distance)]. *)
Definition create_tree_item (r : ref) (it : Item) : option TreeItem :=
  match it with
  | IFolder _ => None
  | ICoordinate c =>
      Some (TreeNode (prefix_coordinate +:+ ci_name c)
                     ("(" +:+ pretty (ci_x c) +:+ ", " +:+ pretty (ci_y c) +:+ ")")
                     r false [])
  | IMeasurement m =>
      n ← Py.to_int (mi_distance m);
      let detail :=
        pretty n +:+ "px (" +:+ pretty (mi_x1 m) +:+ "," +:+ pretty (mi_y1 m)
          +:+ ")→(" +:+ pretty (mi_x2 m) +:+ "," +:+ pretty (mi_y2 m) +:+ ")" in
      Some (TreeNode (prefix_measurement +:+ mi_name m)
                     (if mi_auto_aligned m then detail +:+ " [Aligned]" else detail)
                     r false [])
  end.

Definition add_to_tree_root (mw : MainWindow) (r : ref) (it : Item)
    : option MainWindow :=
  tree_item ← create_tree_item r it;
  Some (set_tree (tree mw ++ [tree_item]) mw).

(** [MainWindow.add_coordinate]; the result carries the new object's
    reference. *)
Definition add_coordinate (h : Heap) (mw : MainWindow) (x y : Z) (now : string)
    : option (ref * Heap * MainWindow) :=
  let item := ICoordinate (CoordinateItem_init x y (Some "") None now) in
  let '(r, h1) := alloc h item in
  mw1 ← add_to_tree_root mw r item;
  let '(h2, mw2) := save_data h1 mw1 in
  Some (r, h2, mw2).

(** [MainWindow.add_measurement] *)
Definition add_measurement (h : Heap) (mw : MainWindow) (x1 y1 x2 y2 : Z)
    (dist : Py.Num) (auto_aligned : bool) (now : string)
    : option (ref * Heap * MainWindow) :=
  m ← MeasurementItem_init x1 y1 x2 y2 dist (Some "") None auto_aligned now;
  let item := IMeasurement m in
  let '(r, h1) := alloc h item in
  mw1 ← add_to_tree_root mw r item;
  let '(h2, mw2) := save_data h1 mw1 in
  Some (r, h2, mw2).

(** [recalculate_folder_counts]: [process_item] only descends below
    folders. *)
Fixpoint process_item (h : Heap) (t : TreeItem) : TreeItem :=
  let 'TreeNode text0 text1 data expanded children := t in
  match h !! data with
  | Some (IFolder _) =>
      TreeNode text0 (pretty (length children) +:+ " items") data expanded
               (map (process_item h) children)
  | _ => t
  end.

Definition recalculate_folder_counts (h : Heap) (mw : MainWindow) : MainWindow :=
  set_tree (map (process_item h) (tree mw)) mw.

(** The loop over [QTreeWidgetItemIterator] shared by the two helpers
    below: the items are visited parent first, then its children, then
    its next sibling; the first one whose data is the object [r] is
    replaced by [k] of it in its parent, and the search stops. [None]:
    no item carries [r]. The data were set from the objects themselves
    and the classes define no [__eq__], so [==] is identity. *)
Fixpoint replace_below (r : ref) (k : TreeItem → list TreeItem) (t : TreeItem)
    : option TreeItem :=
  let 'TreeNode text0 text1 data expanded children := t in
  children' ←
    (fix replace_first (cs : list TreeItem) : option (list TreeItem) :=
       match cs with
       | [] => None
       | c :: cs' =>
           if decide (ti_data c = r) then Some (k c ++ cs')
           else match replace_below r k c with
                | Some c' => Some (c' :: cs')
                | None => cs'' ← replace_first cs'; Some (c :: cs'')
                end
       end) children;
  Some (TreeNode text0 text1 data expanded children').

Fixpoint replace_first (r : ref) (k : TreeItem → list TreeItem)
    (cs : list TreeItem) : option (list TreeItem) :=
  match cs with
  | [] => None
  | c :: cs' =>
      if decide (ti_data c = r) then Some (k c ++ cs')
      else match replace_below r k c with
           | Some c' => Some (c' :: cs')
           | None => cs'' ← replace_first r k cs'; Some (c :: cs'')
           end
  end.

(** [MainWindow.remove_item_by_reference] (lines 911-922) *)
Definition remove_item_by_reference (h : Heap) (mw : MainWindow) (model_item : ref)
    : bool * Heap * MainWindow :=
  match replace_first model_item (λ _, []) (tree mw) with
  | Some tr =>
      let mw1 := recalculate_folder_counts h (set_tree tr mw) in
      let '(h2, mw2) := save_data h mw1 in
      (true, h2, mw2)
  | None => (false, h, mw)
  end.

Definition set_text0 (s : string) (t : TreeItem) : TreeItem :=
  let 'TreeNode _ text1 data expanded children := t in
  TreeNode s text1 data expanded children.

Definition rename_prefix (it : option Item) : string :=
  match it with
  | Some (ICoordinate _) => prefix_coordinate
  | Some (IMeasurement _) => prefix_measurement
  | _ => ""
  end.

(** [MainWindow.rename_item_by_reference] (lines 924-940) *)
Definition rename_item_by_reference (h : Heap) (mw : MainWindow) (model_item : ref)
    (new_name : string) : bool * Heap * MainWindow :=
  let text := rename_prefix (h !! model_item) +:+ new_name in
  match replace_first model_item (λ t, [set_text0 text t]) (tree mw) with
  | Some tr =>
      let h1 := alter (set_name new_name) model_item h in
      let '(h2, mw2) := save_data h1 (set_tree tr mw) in
      (true, h2, mw2)
  | None => (false, h, mw)
  end.

(** ** Python lists

    [l[i]] and [del l[i]] with Python's index rule: a negative index
    counts from the end; [None] is IndexError. *)
Definition py_index {A} (l : list A) (i : Z) : option nat :=
  let n := Z.of_nat (length l) in
  if (0 <=? i) && (i <? n) then Some (Z.to_nat i)
  else if (- n <=? i) && (i <? 0) then Some (Z.to_nat (n + i))
  else None.

Definition py_getitem {A} (l : list A) (i : Z) : option A :=
  n ← py_index l i; l !! n.

Definition py_delitem {A} (l : list A) (i : Z) : option (list A) :=
  n ← py_index l i; Some (delete n l).

(** ** Geometry of the overlay *)

(** [math.sqrt((px - qx)**2 + (py - qy)**2)] on numbers *)
Definition euclid (ax ay bx by_ : Py.Num) : option Py.Num :=
  Py.sqrt (Py.add (Py.sq (Py.sub ax bx)) (Py.sq (Py.sub ay by_))).

(** Lines 554-558 of [finish_ruler], the axis snap; [freeform] is
    [self.shift_pressed]. *)
Definition snap_axis (start end_ : QPoint) (freeform : bool) : QPoint :=
  if freeform then end_
  else
    let dx := Z.abs (px end_ - px start) in
    let dy := Z.abs (py end_ - py start) in
    if dy * 10 <? dx then mkQPoint (px end_) (py start)
    else if dx * 10 <? dy then mkQPoint (px start) (py end_)
    else end_.

(** Line 588: the projection parameter [t] of [pos] on the line through
    the two end points, before it is clamped. *)
Definition projection_parameter (pos : QPoint) (x1 y1 x2 y2 : Z) : option Py.Num :=
  let l2 := (x1 - x2) * (x1 - x2) + (y1 - y2) * (y1 - y2) in
  Py.truediv (Py.PInt ((px pos - x1) * (x2 - x1) + (py pos - y1) * (y2 - y1)))
             (Py.PInt l2).

(** Line 589: [max(0, min(1, t))] *)
Definition clamp01 (t : Py.Num) : Py.Num :=
  Py.max (Py.PInt 0) (Py.min (Py.PInt 1) t).

(** Lines 579-592 of [select_nearest_item]: the distance from [pos] to
    the segment of a MeasurementItem. *)
Definition segment_distance (pos : QPoint) (x1 y1 x2 y2 : Z) : option Py.Num :=
  let l2 := (x1 - x2) * (x1 - x2) + (y1 - y2) * (y1 - y2) in
  if l2 =? 0 then
    euclid (Py.PInt (px pos)) (Py.PInt (py pos)) (Py.PInt x1) (Py.PInt y1)
  else
    t ← projection_parameter pos x1 y1 x2 y2;
    let t := clamp01 t in
    let proj_x := Py.add (Py.PInt x1) (Py.mul t (Py.PInt (x2 - x1))) in
    let proj_y := Py.add (Py.PInt y1) (Py.mul t (Py.PInt (y2 - y1))) in
    euclid (Py.PInt (px pos)) (Py.PInt (py pos)) proj_x proj_y.

(** Lines 574-592: the distance [d] of one session item. *)
Definition item_distance (pos : QPoint) (it : Item) : option Py.Num :=
  match it with
  | ICoordinate c =>
      euclid (Py.PInt (px pos)) (Py.PInt (py pos)) (Py.PInt (ci_x c)) (Py.PInt (ci_y c))
  | IMeasurement m =>
      segment_distance pos (mi_x1 m) (mi_y1 m) (mi_x2 m) (mi_y2 m)
  | IFolder _ => Some (Py.PInt 1000)
  end.

(** The loop of lines 573-596 from index [i] on, with the running
    [min_dist] and [closest_idx]. *)
Fixpoint select_loop (pos : QPoint) (items : list Item) (i : Z)
    (min_dist : Py.Num) (closest_idx : Z) : option Z :=
  match items with
  | [] => Some closest_idx
  | it :: rest =>
      d ← item_distance pos it;
      if Py.lt d min_dist then select_loop pos rest (i + 1) d i
      else select_loop pos rest (i + 1) min_dist closest_idx
  end.

Definition limit : Py.Num := Py.PInt 20.

(** [select_nearest_item] on the objects of the session list: the value
    it stores in [selected_item_index]. *)
Definition nearest_index (pos : QPoint) (items : list Item) : option Z :=
  select_loop pos items 0 limit (-1).

(** ** The overlay window (lines 215-662) *)

(** [capture_mode]: the strings "normal", "ruler" and "edit". *)
Inductive CaptureMode := normal | ruler | edit.

Global Instance CaptureMode_eq_dec : EqDecision CaptureMode.
Proof. solve_decision. Defined.

(** The fields of [OverlayWindow.__init__]. [session_items] holds the
    item objects (the second component of its tuples is always [None]);
    [keyboard_grabbed] and [ov_visible] are the widget's own keyboard
    grab and visibility. *)
Record OverlayWindow := mkOverlayWindow {
  cursor_pos : QPoint;
  corner_pos : Z;
  capture_mode : CaptureMode;
  ruler_start : option QPoint;
  shift_pressed : bool;
  show_help : bool;
  notifications : list (string * Py.Num);
  session_items : list ref;
  selected_item_index : Z;
  keyboard_grabbed : bool;
  ov_visible : bool
}.

Definition OverlayWindow_init : OverlayWindow :=
  {| cursor_pos := mkQPoint 0 0;
     corner_pos := 3;
     capture_mode := normal;
     ruler_start := None;
     shift_pressed := false;
     show_help := true;
     notifications := [];
     session_items := [];
     selected_item_index := -1;
     keyboard_grabbed := false;
     ov_visible := true |}.

Definition set_cursor_pos (p : QPoint) (o : OverlayWindow) : OverlayWindow :=
  mkOverlayWindow p (corner_pos o) (capture_mode o) (ruler_start o)
    (shift_pressed o) (show_help o) (notifications o) (session_items o)
    (selected_item_index o) (keyboard_grabbed o) (ov_visible o).

Definition set_corner_pos (c : Z) (o : OverlayWindow) : OverlayWindow :=
  mkOverlayWindow (cursor_pos o) c (capture_mode o) (ruler_start o)
    (shift_pressed o) (show_help o) (notifications o) (session_items o)
    (selected_item_index o) (keyboard_grabbed o) (ov_visible o).

Definition set_capture_mode (m : CaptureMode) (o : OverlayWindow) : OverlayWindow :=
  mkOverlayWindow (cursor_pos o) (corner_pos o) m (ruler_start o)
    (shift_pressed o) (show_help o) (notifications o) (session_items o)
    (selected_item_index o) (keyboard_grabbed o) (ov_visible o).

Definition set_ruler_start (r : option QPoint) (o : OverlayWindow) : OverlayWindow :=
  mkOverlayWindow (cursor_pos o) (corner_pos o) (capture_mode o) r
    (shift_pressed o) (show_help o) (notifications o) (session_items o)
    (selected_item_index o) (keyboard_grabbed o) (ov_visible o).

Definition set_shift_pressed (b : bool) (o : OverlayWindow) : OverlayWindow :=
  mkOverlayWindow (cursor_pos o) (corner_pos o) (capture_mode o) (ruler_start o)
    b (show_help o) (notifications o) (session_items o)
    (selected_item_index o) (keyboard_grabbed o) (ov_visible o).

Definition set_show_help (b : bool) (o : OverlayWindow) : OverlayWindow :=
  mkOverlayWindow (cursor_pos o) (corner_pos o) (capture_mode o) (ruler_start o)
    (shift_pressed o) b (notifications o) (session_items o)
    (selected_item_index o) (keyboard_grabbed o) (ov_visible o).

Definition set_notifications (l : list (string * Py.Num)) (o : OverlayWindow)
    : OverlayWindow :=
  mkOverlayWindow (cursor_pos o) (corner_pos o) (capture_mode o) (ruler_start o)
    (shift_pressed o) (show_help o) l (session_items o)
    (selected_item_index o) (keyboard_grabbed o) (ov_visible o).

Definition set_session_items (l : list ref) (o : OverlayWindow) : OverlayWindow :=
  mkOverlayWindow (cursor_pos o) (corner_pos o) (capture_mode o) (ruler_start o)
    (shift_pressed o) (show_help o) (notifications o) l
    (selected_item_index o) (keyboard_grabbed o) (ov_visible o).

Definition set_selected_item_index (i : Z) (o : OverlayWindow) : OverlayWindow :=
  mkOverlayWindow (cursor_pos o) (corner_pos o) (capture_mode o) (ruler_start o)
    (shift_pressed o) (show_help o) (notifications o) (session_items o)
    i (keyboard_grabbed o) (ov_visible o).

Definition set_keyboard_grabbed (b : bool) (o : OverlayWindow) : OverlayWindow :=
  mkOverlayWindow (cursor_pos o) (corner_pos o) (capture_mode o) (ruler_start o)
    (shift_pressed o) (show_help o) (notifications o) (session_items o)
    (selected_item_index o) b (ov_visible o).

Definition set_ov_visible (b : bool) (o : OverlayWindow) : OverlayWindow :=
  mkOverlayWindow (cursor_pos o) (corner_pos o) (capture_mode o) (ruler_start o)
    (shift_pressed o) (show_help o) (notifications o) (session_items o)
    (selected_item_index o) (keyboard_grabbed o) b.

(** What a handler reads from outside the program: the clock, as
    [datetime.now().isoformat()] and as [datetime.now().timestamp()]
    (read once per handler), and the answer [(text, ok)] of
    [QInputDialog.getText]. *)
Record Env := mkEnv {
  now_iso : string;
  now : Py.Num;
  prompt : string * bool
}.

(** The program state: the item objects, the main window and its
    overlay. *)
Record World := mkWorld {
  heap : Heap;
  main_window : MainWindow;
  overlay : OverlayWindow
}.

Definition with_overlay (f : OverlayWindow → OverlayWindow) (w : World) : World :=
  mkWorld (heap w) (main_window w) (f (overlay w)).

(** [add_notification] (lines 519-520) *)
Definition add_notification (e : Env) (text : string) (o : OverlayWindow)
    : OverlayWindow :=
  set_notifications (notifications o ++ [(text, Py.add (now e) (Py.PInt 2))]) o.

(** The state change of [draw_notifications] (lines 490-491), run by
    every [paintEvent]; the painting itself changes nothing. *)
Definition draw_notifications (e : Env) (o : OverlayWindow) : OverlayWindow :=
  set_notifications (filter (λ n, Py.lt (now e) n.2 = true) (notifications o)) o.

Definition paintEvent (e : Env) (w : World) : World :=
  with_overlay (draw_notifications e) w.

Definition mouseMoveEvent (pos : QPoint) (w : World) : World :=
  with_overlay (set_cursor_pos pos) w.

(** [finish_ruler] (lines 549-566). Its first line, [if not
    self.ruler_start: return], returns for [None] and for a null
    QPoint alike. *)
Definition finish_ruler (e : Env) (end_pos : QPoint) (w : World) : option World :=
  let o := overlay w in
  match ruler_start o with
  | None => Some w
  | Some start =>
      if isNull start then Some w
      else
        let end_ := snap_axis start end_pos (shift_pressed o) in
        dist ← euclid (Py.PInt (px end_)) (Py.PInt (py end_))
                      (Py.PInt (px start)) (Py.PInt (py start));
        '(item, h, mw) ← add_measurement (heap w) (main_window w)
                           (px start) (py start) (px end_) (py end_) dist
                           (negb (QPoint_eqb end_ end_pos)) (now_iso e);
        n ← Py.to_int dist;
        Some (mkWorld h mw
                (set_ruler_start None
                   (set_capture_mode normal
                      (add_notification e ("Measurement: " +:+ pretty n +:+ "px")
                         (set_session_items (session_items o ++ [item]) o)))))
  end.

(** [select_nearest_item] (lines 568-598). The loop reads the objects of
    the session list; a reference always has its object in Python, so
    the [None] of a missing one never shows in a run of the program. *)
Definition select_nearest_item (pos : QPoint) (w : World) : option World :=
  items ← mapM (λ r, heap w !! r) (session_items (overlay w));
  closest_idx ← nearest_index pos items;
  Some (with_overlay (set_selected_item_index closest_idx) w).

(** [mousePressEvent] (lines 527-547) *)
Definition mousePressEvent (e : Env) (button : MouseButton) (pos : QPoint)
    (w : World) : option World :=
  let o := overlay w in
  match capture_mode o with
  | edit =>
      match button with
      | LeftButton => select_nearest_item pos w
      | _ => Some w
      end
  | mode =>
      match button with
      | LeftButton =>
          match mode with
          | normal =>
              let x := px (cursor_pos o) in
              let y := py (cursor_pos o) in
              '(item, h, mw) ← add_coordinate (heap w) (main_window w) x y (now_iso e);
              Some (mkWorld h mw
                      (add_notification e
                         ("Captured: " +:+ pretty x +:+ ", " +:+ pretty y)
                         (set_session_items (session_items o ++ [item]) o)))
          | ruler => finish_ruler e pos w
          | edit => Some w
          end
      | RightButton =>
          match mode with
          | normal =>
              Some (with_overlay
                      (λ o, add_notification e "Ruler Mode: Click to end"
                              (set_ruler_start (Some pos)
                                 (set_capture_mode ruler o))) w)
          | ruler => finish_ruler e pos w
          | edit => Some w
          end
      | MiddleButton => Some w
      end
  end.

(** [delete_current_selection] (lines 642-647) *)
Definition delete_current_selection (e : Env) (w : World) : option World :=
  let o := overlay w in
  item ← py_getitem (session_items o) (selected_item_index o);
  let '(removed, h, mw) := remove_item_by_reference (heap w) (main_window w) item in
  if removed then
    items ← py_delitem (session_items o) (selected_item_index o);
    Some (mkWorld h mw
            (add_notification e "Item Deleted"
               (set_selected_item_index (-1) (set_session_items items o))))
  else Some (mkWorld h mw o).

(** [rename_current_selection] (lines 649-658). The object's name is
    only the text the dialog opens with; the dialog's answer comes from
    [prompt]. *)
Definition rename_current_selection (e : Env) (w : World) : option World :=
  let o := overlay w in
  item ← py_getitem (session_items o) (selected_item_index o);
  let o1 := set_keyboard_grabbed true (set_keyboard_grabbed false o) in
  let '(text, ok) := prompt e in
  if ok && negb (String.eqb text "") then
    let '(_, h, mw) := rename_item_by_reference (heap w) (main_window w) item text in
    Some (mkWorld h mw (add_notification e "Item Renamed" o1))
  else Some (mkWorld (heap w) (main_window w) o1).

(** [keyPressEvent] (lines 600-640): the key's own branch, then the edit
    mode actions on the resulting state. *)
Definition keyPressEvent (e : Env) (key : Key) (w : World) : option World :=
  let o := overlay w in
  let w1 :=
    match key with
    | Key_Shift => with_overlay (set_shift_pressed true) w
    | Key_E =>
        match capture_mode o with
        | edit =>
            with_overlay
              (λ o, add_notification e "Exited Edit Mode"
                      (set_selected_item_index (-1) (set_capture_mode normal o))) w
        | _ =>
            with_overlay
              (λ o, add_notification e "Edit Mode: Click item to select"
                      (set_ruler_start None (set_capture_mode edit o))) w
        end
    | Key_Escape | Key_Q =>
        match capture_mode o with
        | ruler =>
            with_overlay
              (λ o, add_notification e "Ruler Cancelled"
                      (set_ruler_start None (set_capture_mode normal o))) w
        | edit =>
            with_overlay
              (λ o, set_selected_item_index (-1) (set_capture_mode normal o)) w
        | normal =>
            mkWorld (heap w)
              {| tree := tree (main_window w);
                 root_items := root_items (main_window w);
                 mw_visible := true |}
              (set_ov_visible false o)
        end
    | Key_Space => with_overlay (set_corner_pos ((corner_pos o + 1) `mod` 4)) w
    | Key_H => with_overlay (set_show_help (negb (show_help o))) w
    | _ => w
    end in
  let o1 := overlay w1 in
  if decide (capture_mode o1 = edit ∧ selected_item_index o1 ≠ -1) then
    match key with
    | Key_Delete => delete_current_selection e w1
    | Key_R => rename_current_selection e w1
    | _ => Some w1
    end
  else Some w1.

(** [keyReleaseEvent] (lines 660-662) *)
Definition keyReleaseEvent (key : Key) (w : World) : World :=
  match key with
  | Key_Shift => with_overlay (set_shift_pressed false) w
  | _ => w
  end.

(** ** Runs of the overlay

    The events Qt delivers to the overlay, each with what the handler
    reads from outside. *)
Inductive Event :=
  | MouseMove (pos : QPoint)
  | MousePress (button : MouseButton) (pos : QPoint)
  | KeyPress (key : Key)
  | KeyRelease (key : Key)
  | Paint.

Definition handle (e : Env) (ev : Event) (w : World) : option World :=
  match ev with
  | MouseMove pos => Some (mouseMoveEvent pos w)
  | MousePress button pos => mousePressEvent e button pos w
  | KeyPress key => keyPressEvent e key w
  | KeyRelease key => Some (keyReleaseEvent key w)
  | Paint => Some (paintEvent e w)
  end.

(** [MainWindow.start_capture] (lines 796-799): the main window hides and
    a fresh overlay is shown. *)
Definition start_capture (h : Heap) (mw : MainWindow) : World :=
  mkWorld h {| tree := tree mw; root_items := root_items mw; mw_visible := false |}
          OverlayWindow_init.

(** The states of a capture run: any number of handled events after
    [start_capture]. *)
Inductive reachable : World → Prop :=
  | reachable_start h mw : reachable (start_capture h mw)
  | reachable_step w e ev w' :
      reachable w → handle e ev w = Some w' → reachable w'.

(** Several events in a row, each with its own environment. *)
Fixpoint run (evs : list (Env * Event)) (w : World) : option World :=
  match evs with
  | [] => Some w
  | (e, ev) :: rest => w' ← handle e ev w; run rest w'
  end.

(** ** The default name as the specification words it

    The data model of the specification gives the default name of a
    measurement as "Measurement {round(distance)}px". [round_nearest] is
    Python's [round]: the nearest integer, a tie going to the even one;
    [None] where [round] raises (NaN, infinity). *)
Definition round_nearest (a : Py.Num) : option Z :=
  match Py.value a with
  | Py.XFin q =>
      let f := Qfloor q in
      match (q - inject_Z f ?= 1 # 2)%Q with
      | Lt => Some f
      | Gt => Some (f + 1)
      | Eq => Some (if Z.even f then f else f + 1)
      end
  | _ => None
  end.

Definition spec_default_name (distance : Py.Num) : option string :=
  n ← round_nearest distance;
  Some ("Measurement " +:+ pretty n +:+ "px").

(** Truncation toward zero of a rational. *)
Definition Qtruncate (q : Q) : Z := Z.quot (Qnum q) (Zpos (Qden q)).

(** ** Sample data for the scenarios *)

Definition empty_main_window : MainWindow :=
  {| tree := []; root_items := []; mw_visible := true |}.

Definition sample_env : Env :=
  {| now_iso := "2024-01-01T00:00:00"; now := Py.PFloat (Py.of_int 1700000000);
     prompt := ("", true) |}.

(** 150.0, 5.0 and the square root of 8 as binary64 numbers *)
Definition f150 : spec_float := S754_finite false 5277655813324800 (-45).
Definition f5 : spec_float := S754_finite false 5629499534213120 (-50).
Definition sqrt8 : spec_float := S754_finite false 6369051672525773 (-51).

(** ** Notions used by the proofs *)

(** The floats of sign [s] that are not NaN. *)
Inductive signed (s : bool) : spec_float → Prop :=
  | signed_zero : signed s (S754_zero s)
  | signed_infinity : signed s (S754_infinity s)
  | signed_finite m e : signed s (S754_finite s m e).

(** What the square root accepts: no negative number. *)
Definition not_negative (f : spec_float) : Prop := signed false f ∨ f = S754_nan.


(** The selection is "none" or an index of the session list, and it is
    "none" outside the edit mode. *)
Definition selection_ok (o : OverlayWindow) : Prop :=
  (selected_item_index o = -1
   ∨ 0 ≤ selected_item_index o < Z.of_nat (length (session_items o)))
  ∧ (capture_mode o ≠ edit → selected_item_index o = -1).

(** An edit session with one captured point, selected. *)
Definition sample_edit_world : World :=
  mkWorld {[ 1%positive := ICoordinate (mkCoordinateItem 5 7 "Point (5, 7)" "") ]}
          {| tree := [TreeNode "📍 Point (5, 7)" "(5, 7)" 1%positive false []];
             root_items := [1%positive]; mw_visible := false |}
          (set_selected_item_index 0
             (set_capture_mode edit
                (set_session_items [1%positive] OverlayWindow_init))).

(** ** The ruler preview *)

(** What [draw_ruler] (lines 352-390) shows: the line from the anchor to
    the snapped cursor position and the text of its length. The pens
    and the place of the text are not part of the model; [None] is an
    exception ([self.ruler_start] is [None], or [int(dist)] raises). *)
Definition draw_ruler (o : OverlayWindow) : option (QPoint * QPoint * string) :=
  start ← ruler_start o;
  let end_ := snap_axis start (cursor_pos o) (shift_pressed o) in
  dist ← euclid (Py.PInt (px end_)) (Py.PInt (py end_))
                (Py.PInt (px start)) (Py.PInt (py start));
  n ← Py.to_int dist;
  Some (start, end_, pretty n +:+ "px").

(** ** The tree after a drop

    [HistoryTreeWidget._check_node] (lines 198-210) on one child: the
    item and, behind it, the children taken out of it. The loop runs
    from the last child to the first and inserts behind the child it is
    on, so the children it moves up are not visited again and the
    children before it keep their index. *)
Definition is_folder (it : option Item) : bool :=
  match it with Some (IFolder _) => true | _ => false end.





(** ** Renaming in the tree

    [SmartRenameDelegate.setEditorData] (lines 138-145): the text the
    editor opens with; the loop stops at the first prefix found. *)
Definition setEditorData (text : string) : string :=
  match strip_prefix prefix_coordinate text with
  | Some s => s
  | None =>
      match strip_prefix prefix_measurement text with
      | Some s => s
      | None => strip prefix_folder text
      end
  end.

Definition class_prefix (data : Item) : string :=
  match data with
  | ICoordinate _ => prefix_coordinate
  | IMeasurement _ => prefix_measurement
  | IFolder _ => prefix_folder
  end.

(** [SmartRenameDelegate.setModelData] (lines 147-165): the text the
    item gets from what the editor holds. *)
Definition setModelData (data : Item) (new_text : string) : string :=
  let prefix := class_prefix data in
  match strip_prefix prefix new_text with
  | Some _ => new_text
  | None => prefix +:+ new_text
  end.

(** ** The data file (lines 32-61, 101-130)

    The values [json.dump] writes and [json.load] reads back: a dict
    keeps its keys in the order of insertion, each key once. *)
#[warnings="-register-all"]
Inductive Json :=
  | JNull
  | JBool (b : bool)
  | JNum (n : Py.Num)
  | JStr (s : string)
  | JList (l : list Json)
  | JDict (d : list (string * Json)).

(** [to_dict] only reads the objects. It is given here on an item with
    the items below it: the objects a folder reaches through [items],
    as the tree they form. *)
#[warnings="-register-all"]
Inductive Stored :=
  | SCoordinate (c : CoordinateItem)
  | SMeasurement (m : MeasurementItem)
  | SFolder (name timestamp : string) (expanded : bool) (items : list Stored).

(** [CoordinateItem.to_dict], [MeasurementItem.to_dict] and
    [FolderItem.to_dict] *)
Fixpoint to_dict (s : Stored) : Json :=
  match s with
  | SCoordinate c =>
      JDict [("type", JStr "coordinate");
             ("x", JNum (Py.PInt (ci_x c))); ("y", JNum (Py.PInt (ci_y c)));
             ("name", JStr (ci_name c)); ("timestamp", JStr (ci_timestamp c))]
  | SMeasurement m =>
      JDict [("type", JStr "measurement");
             ("x1", JNum (Py.PInt (mi_x1 m))); ("y1", JNum (Py.PInt (mi_y1 m)));
             ("x2", JNum (Py.PInt (mi_x2 m))); ("y2", JNum (Py.PInt (mi_y2 m)));
             ("distance", JNum (mi_distance m)); ("name", JStr (mi_name m));
             ("timestamp", JStr (mi_timestamp m));
             ("auto_aligned", JBool (mi_auto_aligned m))]
  | SFolder name timestamp expanded items =>
      JDict [("type", JStr "folder"); ("name", JStr name);
             ("timestamp", JStr timestamp); ("expanded", JBool expanded);
             ("items", JList (map to_dict items))]
  end.

(** What a step of [_parse_items] comes to. [Raises]: the source raises
    (KeyError, TypeError, ValueError). [Outside]: the source goes on
    with a value the records of this model do not hold, such as a
    coordinate that is a string. *)
Inductive result (A : Type) :=
  | Ok (a : A)
  | Raises
  | Outside.
Arguments Ok {A} a.
Arguments Raises {A}.
Arguments Outside {A}.

Definition result_bind {A B} (x : result A) (k : A → result B) : result B :=
  match x with
  | Ok a => k a
  | Raises => Raises
  | Outside => Outside
  end.

(** [d.get(k)] *)
Fixpoint dict_get (d : list (string * Json)) (k : string) : option Json :=
  match d with
  | [] => None
  | (k', v) :: d' => if String.eqb k' k then Some v else dict_get d' k
  end.

(** [d[k]] *)
Definition dict_getitem (d : list (string * Json)) (k : string) : result Json :=
  match dict_get d k with
  | Some v => Ok v
  | None => Raises
  end.

(** [bool(v)] is false *)
Definition falsy (v : Json) : bool :=
  match v with
  | JNull | JBool false | JStr EmptyString | JList [] | JDict [] => true
  | JNum n => Py.is_zero n
  | _ => false
  end.

(** A value passed as [name] or [timestamp]: all the constructors do
    with it is [v or default]. *)
Definition as_text (v : option Json) : result (option string) :=
  match v with
  | None => Ok None
  | Some (JStr s) => Ok (Some s)
  | Some v => if falsy v then Ok None else Outside
  end.

Definition as_int (v : Json) : result Z :=
  match v with
  | JNum (Py.PInt n) => Ok n
  | _ => Outside
  end.

Definition as_number (v : Json) : result Py.Num :=
  match v with
  | JNum n => Ok n
  | _ => Outside
  end.

Definition as_bool (v : Json) : result bool :=
  match v with
  | JBool b => Ok b
  | _ => Outside
  end.

Definition of_option {A} (x : option A) : result A :=
  match x with
  | Some a => Ok a
  | None => Raises
  end.

(** [DataStore._parse_items] (lines 119-130) on one element of the list:
    the items it appends. An element whose type is none of the three
    is passed over. *)
Fixpoint parse_item (now : string) (j : Json) {struct j} : result (list Stored) :=
  match j with
  | JDict d =>
      let parsed_items : result (list Stored) :=
        (fix items_of (d : list (string * Json)) : result (list Stored) :=
           match d with
           | [] => Ok []
           | (k, v) :: d' =>
               if String.eqb k "items" then
                 match v with
                 | JList l =>
                     (fix parse_list (l : list Json) : result (list Stored) :=
                        match l with
                        | [] => Ok []
                        | j' :: l' =>
                            result_bind (parse_item now j') (λ x,
                            result_bind (parse_list l') (λ xs, Ok (x ++ xs)))
                        end) l
                 | JStr EmptyString | JDict [] => Ok []
                 | _ => Raises
                 end
               else items_of d'
           end) d in
      result_bind (dict_getitem d "type") (λ type,
      match type with
      | JStr "coordinate" =>
          result_bind (dict_getitem d "x") (λ vx,
          result_bind (dict_getitem d "y") (λ vy,
          result_bind (as_int vx) (λ x,
          result_bind (as_int vy) (λ y,
          result_bind (as_text (dict_get d "name")) (λ name,
          result_bind (as_text (dict_get d "timestamp")) (λ timestamp,
          Ok [SCoordinate (CoordinateItem_init x y name timestamp now)]))))))
      | JStr "measurement" =>
          result_bind (dict_getitem d "x1") (λ vx1,
          result_bind (dict_getitem d "y1") (λ vy1,
          result_bind (dict_getitem d "x2") (λ vx2,
          result_bind (dict_getitem d "y2") (λ vy2,
          result_bind (dict_getitem d "distance") (λ vd,
          result_bind (as_int vx1) (λ x1,
          result_bind (as_int vy1) (λ y1,
          result_bind (as_int vx2) (λ x2,
          result_bind (as_int vy2) (λ y2,
          result_bind (as_number vd) (λ distance,
          result_bind (as_text (dict_get d "name")) (λ name,
          result_bind (as_text (dict_get d "timestamp")) (λ timestamp,
          result_bind (as_bool (default JNull (dict_get d "auto_aligned")))
            (λ auto_aligned,
          result_bind
            (of_option (MeasurementItem_init x1 y1 x2 y2 distance name timestamp
                          auto_aligned now)) (λ m,
          Ok [SMeasurement m]))))))))))))))
      | JStr "folder" =>
          result_bind (dict_getitem d "name") (λ vname,
          result_bind (as_text (Some vname)) (λ name,
          result_bind (as_text (dict_get d "timestamp")) (λ timestamp,
          result_bind (as_bool (default (JBool true) (dict_get d "expanded")))
            (λ expanded,
          result_bind parsed_items (λ items,
          Ok [SFolder (str_or name "New Folder") (str_or timestamp now) expanded
                      items])))))
      | _ => Ok []
      end)
  | _ => Raises
  end.

Fixpoint _parse_items (now : string) (json_list : list Json) : result (list Stored) :=
  match json_list with
  | [] => Ok []
  | j :: l =>
      result_bind (parse_item now j) (λ x,
      result_bind (_parse_items now l) (λ xs, Ok (x ++ xs)))
  end.

(** ** Further notions used by the proofs *)

(** The objects carried by a tree item and the items below it, parent
    first: the order of [QTreeWidgetItemIterator]. *)
Fixpoint item_refs (t : TreeItem) : list ref :=
  let 'TreeNode _ _ data _ children := t in
  data :: concat (map item_refs children).

Definition tree_refs (cs : list TreeItem) : list ref := concat (map item_refs cs).

(** [item.name] *)
Definition item_name (it : Item) : string :=
  match it with
  | ICoordinate c => ci_name c
  | IMeasurement m => mi_name m
  | IFolder f => fi_name f
  end.

(** What [save_data] and the renaming leave alone in an object: its
    class and everything but [name], [expanded] and [items]. *)
Definition same_data (a b : Item) : Prop :=
  match a, b with
  | ICoordinate c, ICoordinate c' =>
      ci_x c = ci_x c' ∧ ci_y c = ci_y c' ∧ ci_timestamp c = ci_timestamp c'
  | IMeasurement m, IMeasurement m' =>
      mi_x1 m = mi_x1 m' ∧ mi_y1 m = mi_y1 m' ∧ mi_x2 m = mi_x2 m'
      ∧ mi_y2 m = mi_y2 m' ∧ mi_distance m = mi_distance m'
      ∧ mi_timestamp m = mi_timestamp m' ∧ mi_auto_aligned m = mi_auto_aligned m'
  | IFolder f, IFolder f' => fi_timestamp f = fi_timestamp f'
  | _, _ => False
  end.

Definition same_objects (h h' : Heap) : Prop :=
  ∀ r, match h !! r, h' !! r with
       | Some a, Some b => same_data a b
       | None, None => True
       | _, _ => False
       end.

(** An object the overlay can have captured: a point or a measurement. *)
Definition captured (it : Item) : Prop :=
  match it with IFolder _ => False | _ => True end.

(** The session list names distinct live objects, each a point or a
    measurement. *)
Definition session_live (w : World) : Prop :=
  NoDup (session_items (overlay w))
  ∧ ∀ r, r ∈ session_items (overlay w) →
         ∃ it, heap w !! r = Some it ∧ captured it.

Definition corner_ok (o : OverlayWindow) : Prop := 0 ≤ corner_pos o ≤ 3.

Definition sample_ruler_world : World :=
  with_overlay
    (λ o, set_cursor_pos (mkQPoint 250 103)
            (set_ruler_start (Some (mkQPoint 100 100)) (set_capture_mode ruler o)))
    (start_capture ∅ empty_main_window).

(** A tree item and the items below it, parent first. *)
Fixpoint item_nodes (t : TreeItem) : list TreeItem :=
  t :: concat (map item_nodes (ti_children t)).

Definition tree_nodes (cs : list TreeItem) : list TreeItem :=
  concat (map item_nodes cs).

(** What the search does to the objects of the tree, read parent first:
    [None] when no item carries [r]; otherwise the first item that does
    is found, with the items below it, and replaced by [k] of it. *)
Definition replaced (r : ref) (k : TreeItem → list TreeItem)
    (cs : list TreeItem) (res : option (list TreeItem)) : Prop :=
  match res with
  | None => r ∉ tree_refs cs
  | Some cs' =>
      ∃ n1 node n2,
        tree_nodes cs = n1 ++ item_nodes node ++ n2
        ∧ ti_data node = r
        ∧ Forall (λ n, ti_data n ≠ r) n1
        ∧ tree_refs cs' = map ti_data n1 ++ tree_refs (k node) ++ map ti_data n2
  end.

Definition replaced_below (r : ref) (k : TreeItem → list TreeItem) (t : TreeItem)
    : Prop :=
  replaced r k (ti_children t) (ti_children <$> replace_below r k t)
  ∧ ∀ t', replace_below r k t = Some t' → ti_data t' = ti_data t.

(** The object [r] has a childless item at the top level of the tree. *)
Definition has_leaf (r : ref) (cs : list TreeItem) : Prop :=
  ∃ t, t ∈ cs ∧ ti_data t = r ∧ ti_children t = [].

(** Every object of the session list is shown at the top level. *)
Definition session_shown (w : World) : Prop :=
  ∀ r, r ∈ session_items (overlay w) → has_leaf r (tree (main_window w)).




(** The fields a save writes, each with the value written last. *)
Record patch := mkPatch {
  p_name : option string;
  p_expanded : option bool;
  p_items : option (list ref)
}.

Definition apply_patch (p : patch) (it : Item) : Item :=
  match it with
  | ICoordinate c =>
      ICoordinate {| ci_x := ci_x c; ci_y := ci_y c;
                     ci_name := default (ci_name c) (p_name p);
                     ci_timestamp := ci_timestamp c |}
  | IMeasurement m =>
      IMeasurement {| mi_x1 := mi_x1 m; mi_y1 := mi_y1 m;
                      mi_x2 := mi_x2 m; mi_y2 := mi_y2 m;
                      mi_distance := mi_distance m;
                      mi_name := default (mi_name m) (p_name p);
                      mi_timestamp := mi_timestamp m;
                      mi_auto_aligned := mi_auto_aligned m |}
  | IFolder f =>
      IFolder {| fi_name := default (fi_name f) (p_name p);
                 fi_timestamp := fi_timestamp f;
                 fi_items := default (fi_items f) (p_items p);
                 fi_expanded := default (fi_expanded f) (p_expanded p) |}
  end.

Definition no_patch : patch := mkPatch None None None.

(** [q] after [p] *)
Definition patch_after (q p : patch) : patch :=
  mkPatch (from_option Some (p_name p) (p_name q))
          (from_option Some (p_expanded p) (p_expanded q))
          (from_option Some (p_items p) (p_items q)).

Definition patch_at (data : ref) (p : patch) (r : ref) : patch :=
  if decide (r = data) then p else no_patch.

(** The heap [h'] is [h] with the objects patched by [P]. *)
Definition patched (P : ref → patch) (h h' : Heap) : Prop :=
  ∀ r, h' !! r = apply_patch (P r) <$> h !! r.

(** The item without its detail text, at every depth. *)
Fixpoint without_detail (t : TreeItem) : TreeItem :=
  let 'TreeNode text0 _ data expanded children := t in
  TreeNode text0 "" data expanded (map without_detail children).

(** The patches of a save are fixed by the tree and by which objects
    are folders. *)
Definition fixed_patches (c : ref → bool) (run : Heap → Heap) : Prop :=
  ∃ P, ∀ h, (∀ r, is_folder (h !! r) = c r) → patched P h (run h).

(** Every name and every timestamp is a string that is not empty, at
    every depth. *)
Fixpoint named (s : Stored) : bool :=
  match s with
  | SCoordinate c =>
      negb (String.eqb (ci_name c) "") && negb (String.eqb (ci_timestamp c) "")
  | SMeasurement m =>
      negb (String.eqb (mi_name m) "") && negb (String.eqb (mi_timestamp m) "")
  | SFolder name timestamp _ items =>
      negb (String.eqb name "") && negb (String.eqb timestamp "")
      && forallb named items
  end.

(** * Properties

    ** The order of Python numbers *)

Section order.

Local Arguments Qcompare : simpl never.

Lemma xcompare_lt_trans a b c :
  Py.xcompare a b = Some Lt → Py.xcompare b c = Some Lt → Py.xcompare a c = Some Lt.
Proof.
  destruct a as [| |p|], b as [| |q|], c as [| |r|]; simpl; try congruence.
  intros H1 H2. f_equal.
  injection H1 as H1. injection H2 as H2.
  apply Qlt_alt. apply Qlt_alt in H1, H2. eapply Qlt_trans; eauto.
Qed.

Lemma lt_trans a b c : Py.lt a b = true → Py.lt b c = true → Py.lt a c = true.
Proof.
  unfold Py.lt. intros H1 H2.
  destruct (Py.xcompare (Py.value a) (Py.value b)) as [[]|] eqn:E1; try discriminate.
  destruct (Py.xcompare (Py.value b) (Py.value c)) as [[]|] eqn:E2; try discriminate.
  by rewrite (xcompare_lt_trans _ _ _ E1 E2).
Qed.

Lemma lt_irrefl a : Py.lt a a = false.
Proof.
  unfold Py.lt. destruct (Py.value a) as [| |q|]; simpl; try done.
  destruct (q ?= q)%Q eqn:E; try done.
  apply Qlt_alt in E. by apply Qlt_irrefl in E.
Qed.

Lemma lt_asym a b : Py.lt a b = true → Py.lt b a = false.
Proof.
  intros H. destruct (Py.lt b a) eqn:E; [|done].
  pose proof (lt_trans _ _ _ H E) as F. by rewrite lt_irrefl in F.
Qed.

Lemma lt_not_le a b : Py.lt a b = true → Py.le b a = false.
Proof.
  unfold Py.lt, Py.le.
  destruct (Py.value a) as [| |p|], (Py.value b) as [| |q|]; simpl; try done.
  destruct (p ?= q)%Q eqn:E; try done. intros _.
  apply Qlt_alt in E.
  destruct (q ?= p)%Q eqn:F; try done.
  - apply Qeq_alt in F. rewrite F in E. by apply Qlt_irrefl in E.
  - apply Qlt_alt in F. exfalso. eapply Qlt_irrefl, Qlt_trans; eauto.
Qed.

Lemma le_lt_trans a b c : Py.le a b = true → Py.lt b c = true → Py.lt a c = true.
Proof.
  unfold Py.lt, Py.le.
  destruct (Py.value a) as [| |p|], (Py.value b) as [| |q|],
           (Py.value c) as [| |r|]; simpl; try done.
  destruct (p ?= q)%Q eqn:E; try done; intros _;
    destruct (q ?= r)%Q eqn:F; try done; intros _.
  - apply Qeq_alt in E. apply Qlt_alt in F. rewrite <- E in F.
    assert (G : (p ?= r)%Q = Lt) by (by apply Qlt_alt). by rewrite G.
  - apply Qlt_alt in E, F. pose proof (Qlt_trans _ _ _ E F) as G'.
    assert (G : (p ?= r)%Q = Lt) by (by apply Qlt_alt). by rewrite G.
Qed.


End order.

(** ** Rounding to binary64 *)

Section rounding.

Local Ltac zcompare :=
  match goal with
  | |- context [(?a ?= ?b)%Z] => destruct (Z.compare_spec a b)
  end.


Lemma shr_1_m mrs : 0 ≤ shr_m mrs → shr_m (shr_1 mrs) = shr_m mrs / 2.
Proof.
  destruct mrs as [m r s]. simpl. intros Hm.
  destruct m as [|[p|p|]|p]; simpl; try lia;
    first [ apply Z.div_unique with 0; lia | apply Z.div_unique with 1; lia ].
Qed.

Lemma iter_shr_1_m p : ∀ mrs,
  0 ≤ shr_m mrs → shr_m (SpecFloat.iter_pos shr_1 p mrs) = shr_m mrs / 2 ^ Zpos p.
Proof.
  assert (Hnn : ∀ mrs, 0 ≤ shr_m mrs → 0 ≤ shr_m (shr_1 mrs)).
  { intros mrs H. rewrite shr_1_m by done. apply Z.div_pos; lia. }
  induction p as [p IH|p IH|]; intros mrs Hm; simpl SpecFloat.iter_pos.
  - assert (H1 := Hnn _ Hm).
    assert (H2 : 0 ≤ shr_m (SpecFloat.iter_pos shr_1 p (shr_1 mrs))).
    { rewrite IH by done. apply Z.div_pos; lia. }
    rewrite IH, IH, shr_1_m by done.
    rewrite !Z.div_div by lia. f_equal.
    replace (Zpos p~1) with (1 + Zpos p + Zpos p) by lia.
    rewrite !Z.pow_add_r by lia. lia.
  - assert (H2 : 0 ≤ shr_m (SpecFloat.iter_pos shr_1 p mrs)).
    { rewrite IH by done. apply Z.div_pos; lia. }
    rewrite IH, IH by done.
    rewrite !Z.div_div by lia. f_equal.
    replace (Zpos p~0) with (Zpos p + Zpos p) by lia.
    rewrite !Z.pow_add_r by lia. lia.
  - rewrite shr_1_m by done. by rewrite Z.pow_1_r.
Qed.

Lemma shr_record_of_loc_m m l : shr_m (shr_record_of_loc m l) = m.
Proof. by destruct l as [|[]]. Qed.

(** A right shift by the format's exponent function: the mantissa is
    divided by a power of two that the exponent takes up. *)
Lemma shr_fexp_m m e l :
  0 ≤ m →
  ∃ k, 0 ≤ k ∧ k = Z.max 0 (fexp Py.prec Py.emax (Zdigits2 m + e) - e)
       ∧ shr_m (shr_fexp Py.prec Py.emax m e l).1 = m / 2 ^ k
       ∧ (shr_fexp Py.prec Py.emax m e l).2 = e + k.
Proof.
  intros Hm. unfold shr_fexp, shr.
  destruct (fexp Py.prec Py.emax (Zdigits2 m + e) - e) as [|p|p] eqn:E.
  - exists 0. simpl. rewrite shr_record_of_loc_m, Z.div_1_r. lia.
  - exists (Zpos p). simpl fst. simpl snd.
    rewrite iter_shr_1_m by (rewrite shr_record_of_loc_m; done).
    rewrite shr_record_of_loc_m. lia.
  - exists 0. simpl. rewrite shr_record_of_loc_m, Z.div_1_r. lia.
Qed.

Lemma round_nearest_even_ge m l : m ≤ round_nearest_even m l.
Proof. destruct l as [|[]]; simpl; try lia. destruct (Z.even m); lia. Qed.

Lemma binary_round_aux_signed s m e l :
  0 ≤ m → signed s (binary_round_aux Py.prec Py.emax s m e l).
Proof.
  intros Hm. unfold binary_round_aux.
  destruct (shr_fexp_m m e l Hm) as (k & Hk & _ & Hm1 & _).
  destruct (shr_fexp Py.prec Py.emax m e l) as [mrs' e'] eqn:E1.
  simpl in Hm1.
  set (m1 := round_nearest_even (shr_m mrs') (loc_of_shr_record mrs')).
  assert (Hm1' : 0 ≤ m1).
  { pose proof (round_nearest_even_ge (shr_m mrs') (loc_of_shr_record mrs')).
    assert (0 ≤ shr_m mrs') by (rewrite Hm1; apply Z.div_pos; lia). lia. }
  destruct (shr_fexp_m m1 e' loc_Exact Hm1') as (k2 & Hk2 & _ & Hm2 & _).
  destruct (shr_fexp Py.prec Py.emax m1 e' loc_Exact) as [mrs'' e''] eqn:E2.
  simpl in Hm2.
  assert (0 ≤ shr_m mrs'') by (rewrite Hm2; apply Z.div_pos; lia).
  destruct (shr_m mrs'') as [|p|p]; [constructor| |lia].
  destruct (e'' <=? Py.emax - Py.prec); constructor.
Qed.






End rounding.

(** ** The distance functions always return

    Squares and their sums are never negative, so [math.sqrt] does not
    raise on them, and the division is guarded by [l2 == 0]. *)

Lemma not_negative_is_negative f : not_negative f → Py.is_negative f = false.
Proof. by intros [[]| ->]. Qed.

Lemma of_int_not_negative n : 0 ≤ n → not_negative (Py.of_int n).
Proof.
  intros Hn. left. destruct n as [|p|p]; [constructor| |lia].
  unfold Py.of_int, binary_normalize, binary_round.
  destruct (shl_align _ _ _) as [mz ez].
  apply binary_round_aux_signed. lia.
Qed.

Lemma sq_not_negative a : not_negative (Py.to_float (Py.sq a)).
Proof.
  destruct a as [n|f]; simpl.
  - apply of_int_not_negative. nia.
  - destruct f as [s|s| |s m e]; simpl; try (left; rewrite xorb_nilpotent; constructor).
    + by right.
    + left. rewrite xorb_nilpotent. apply binary_round_aux_signed. lia.
Qed.

Lemma SFadd_not_negative x y :
  not_negative x → not_negative y → not_negative (SFadd Py.prec Py.emax x y).
Proof.
  intros [Hx| ->] [Hy| ->]; try (by right); [|destruct x; by right].
  destruct Hx as [| |m1 e1], Hy as [| |m2 e2]; simpl; try (left; constructor).
  destruct (shl_align m1 e1 _) as [n1 ?], (shl_align m2 e2 _) as [n2 ?]. simpl.
  unfold binary_normalize, binary_round.
  destruct (shl_align _ _ _) as [mz ez].
  left. apply binary_round_aux_signed. lia.
Qed.

Lemma euclid_total ax ay bx by_ : is_Some (euclid ax ay bx by_).
Proof.
  unfold euclid, Py.sqrt.
  rewrite not_negative_is_negative; [done|].
  pose proof (sq_not_negative (Py.sub ax bx)) as H1.
  pose proof (sq_not_negative (Py.sub ay by_)) as H2.
  destruct (Py.sq (Py.sub ax bx)) as [m|f] eqn:E1,
           (Py.sq (Py.sub ay by_)) as [n|g] eqn:E2;
    try (simpl; by apply SFadd_not_negative).
  simpl. apply of_int_not_negative.
  destruct (Py.sub ax bx), (Py.sub ay by_); simpl in *; simplify_eq; nia.
Qed.

Lemma segment_distance_total pos x1 y1 x2 y2 :
  is_Some (segment_distance pos x1 y1 x2 y2).
Proof.
  unfold segment_distance.
  destruct (Z.eqb_spec ((x1 - x2) * (x1 - x2) + (y1 - y2) * (y1 - y2)) 0) as [|Hl2];
    [apply euclid_total|].
  unfold projection_parameter, Py.truediv. simpl Py.is_zero.
  destruct (Z.eqb_spec ((x1 - x2) * (x1 - x2) + (y1 - y2) * (y1 - y2)) 0); [done|].
  simpl. apply euclid_total.
Qed.

Lemma item_distance_total pos it : is_Some (item_distance pos it).
Proof.
  destruct it; simpl; [apply euclid_total|apply segment_distance_total|done].
Qed.

(** ** Distances *)






(** ** The hit tester *)

Lemma item_distances_total pos items :
  ∃ ds, Forall2 (λ it d, item_distance pos it = Some d) items ds.
Proof.
  induction items as [|it items [ds IH]]; [by exists []|].
  destruct (item_distance_total pos it) as [d Hd].
  exists (d :: ds). by constructor.
Qed.

(** The loop from index [i] on: either no item beats the running minimum,
    or the result is the first item among those of least distance, and
    that distance is below the running minimum. *)
Lemma select_loop_spec pos items ds :
  Forall2 (λ it d, item_distance pos it = Some d) items ds →
  ∀ i min_dist closest_idx,
  ∃ r, select_loop pos items i min_dist closest_idx = Some r ∧
    ((r = closest_idx ∧ ∀ j d, ds !! j = Some d → Py.lt d min_dist = false)
     ∨ (∃ k d, r = i + Z.of_nat k ∧ ds !! k = Some d ∧ Py.lt d min_dist = true
          ∧ (∀ j dj, ds !! j = Some dj → Py.lt dj d = false)
          ∧ (∀ j dj, (j < k)%nat → ds !! j = Some dj → Py.le dj d = false))).
Proof.
  induction 1 as [|it d0 items ds Hd _ IH]; intros i m c; simpl.
  - exists c. split; [done|]. left. split; [done|]. intros j d. by rewrite lookup_nil.
  - rewrite Hd. simpl. destruct (Py.lt d0 m) eqn:E.
    + destruct (IH (i + 1) d0 i) as (r & -> & Hr). exists r. split; [done|].
      right. destruct Hr as [[-> Hall]|(k & d & -> & Hk & Hlt & Hmin & Hfirst)].
      * exists 0%nat, d0. split_and!; [lia|done|done| |intros; lia].
        intros [|j] dj Hj; simpl in Hj; [simplify_eq; apply lt_irrefl|eauto].
      * exists (S k), d. split_and!; [lia|done|by eapply lt_trans| |].
        -- intros [|j] dj Hj; simpl in Hj; [simplify_eq; by apply lt_asym|eauto].
        -- intros [|j] dj Hjk Hj; simpl in Hj;
             [simplify_eq; by apply lt_not_le|eapply Hfirst; [|done]; lia].
    + destruct (IH (i + 1) m c) as (r & -> & Hr). exists r. split; [done|].
      destruct Hr as [[-> Hall]|(k & d & -> & Hk & Hlt & Hmin & Hfirst)].
      * left. split; [done|]. intros [|j] dj Hj; simpl in Hj; [by simplify_eq|eauto].
      * right. exists (S k), d. split_and!; [lia|done|done| |].
        -- intros [|j] dj Hj; simpl in Hj; [simplify_eq|eauto].
           destruct (Py.lt dj d) eqn:F; [|done].
           by rewrite (lt_trans _ _ _ F Hlt) in E.
        -- intros [|j] dj Hjk Hj; simpl in Hj;
             [simplify_eq|eapply Hfirst; [|done]; lia].
           destruct (Py.le dj d) eqn:F; [|done].
           by rewrite (le_lt_trans _ _ _ F Hlt) in E.
Qed.

(** C4. The hit tester always returns. With [ds] the distances of the
    session items in list order, the result is -1 exactly when no
    distance is below the threshold of 20; otherwise it is the index [k]
    of an item whose distance [d] is below 20, no item has a distance
    below [d], and every earlier item has a distance that is not even
    equal to [d]: among the items of least distance the first one in
    list order is taken. *)
Theorem select_nearest_item_minimum (pos : QPoint) (items : list Item) :
  ∃ r ds,
    nearest_index pos items = Some r
    ∧ Forall2 (λ it d, item_distance pos it = Some d) items ds
    ∧ ((r = -1 ∧ ∀ j d, ds !! j = Some d → Py.lt d limit = false)
       ∨ (∃ k d, r = Z.of_nat k ∧ ds !! k = Some d ∧ Py.lt d limit = true
            ∧ (∀ j dj, ds !! j = Some dj → Py.lt dj d = false)
            ∧ (∀ j dj, (j < k)%nat → ds !! j = Some dj → Py.le dj d = false))).
Proof.
  destruct (item_distances_total pos items) as [ds Hds].
  destruct (select_loop_spec pos items ds Hds 0 limit (-1)) as (r & Hr & Hcases).
  exists r, ds. split; [done|]. split; [done|].
  destruct Hcases as [?|(k & d & -> & ?)]; [by left|].
  right. exists k, d. by rewrite Z.add_0_l.
Qed.

Lemma select_loop_range pos items : ∀ i m c r,
  select_loop pos items i m c = Some r →
  r = c ∨ i ≤ r < i + Z.of_nat (length items).
Proof.
  induction items as [|it items IH]; intros i m c r; simpl.
  - intros [= ->]. by left.
  - destruct (item_distance pos it) as [d|]; [simpl|done].
    destruct (Py.lt d m); intros H; apply IH in H; lia.
Qed.

(** ** The default name of a measurement *)

Lemma to_int_truncates a q :
  Py.value a = Py.XFin q → Py.to_int a = Some (Qtruncate q).
Proof.
  destruct a as [n|[s|s| |s m e]]; simpl; try (by destruct s); intros ?; simplify_eq.
  - unfold Qtruncate. simpl. by rewrite Z.quot_1_r.
  - done.
  - f_equal. unfold Qtruncate, Py.dyadic.
    destruct e as [|p|p]; simpl Qnum; simpl Qden.
    + by rewrite Z.quot_1_r.
    + rewrite Z.quot_1_r. destruct s; simpl; lia.
    + change (Z.pow_pos 2 p) with (2 ^ Zpos p). rewrite Pos2Z.inj_pow.
      assert (0 < 2 ^ Zpos p) by (apply Z.pow_pos_nonneg; lia).
      destruct s; simpl cond_Zopp.
      * change (Zneg m) with (- Zpos m).
        rewrite Z.quot_opp_l by lia. rewrite Z.quot_div_nonneg by lia. done.
      * by rewrite Z.quot_div_nonneg by lia.
Qed.

(** C1, as the code has it. A MeasurementItem created with an empty (or
    no) name and a distance of finite value [q] is named
    "Measurement {n}px" where [n] is [q] truncated toward zero, that is
    [int(distance)], not the nearest integer. *)
Theorem measurement_default_name (x1 y1 x2 y2 : Z) (distance : Py.Num)
    (name timestamp : option string) (auto_aligned : bool) (now : string) (q : Q) :
  name = None ∨ name = Some "" →
  Py.value distance = Py.XFin q →
  ∃ m, MeasurementItem_init x1 y1 x2 y2 distance name timestamp auto_aligned now
         = Some m
       ∧ mi_name m = "Measurement " +:+ pretty (Qtruncate q) +:+ "px".
Proof.
  intros Hname Hq. unfold MeasurementItem_init.
  rewrite (to_int_truncates _ _ Hq).
  destruct Hname as [-> | ->]; simpl; eexists; split; done.
Qed.

Lemma measurement_default_name_witness :
  ∃ m, MeasurementItem_init 1 1 3 3 (Py.PFloat sqrt8) (Some "") None false "" = Some m
       ∧ mi_name m = "Measurement " +:+ pretty (Qtruncate (Py.dyadic 6369051672525773 (-51))) +:+ "px".
Proof.
  apply (measurement_default_name 1 1 3 3 (Py.PFloat sqrt8) (Some "") None false ""
           (Py.dyadic 6369051672525773 (-51))); [by right|reflexivity].
Defined.

(** The ruler from (1,1) to (3,3) measures the square root of 8, about
    2.83: the code names it "Measurement 2px", rounding to the nearest
    integer would give "Measurement 3px". *)
Lemma default_name_not_rounded :
  euclid (Py.PInt 3) (Py.PInt 3) (Py.PInt 1) (Py.PInt 1) = Some (Py.PFloat sqrt8)
  ∧ mi_name <$> MeasurementItem_init 1 1 3 3 (Py.PFloat sqrt8) (Some "") None false ""
      = Some "Measurement 2px"
  ∧ spec_default_name (Py.PFloat sqrt8) = Some "Measurement 3px"
  ∧ mi_name <$> MeasurementItem_init 1 1 3 3 (Py.PFloat sqrt8) (Some "") None false ""
      ≠ spec_default_name (Py.PFloat sqrt8).
Proof.
  split_and!; [by vm_compute|by vm_compute|by vm_compute|].
  vm_compute. discriminate.
Qed.

(** ** The axis snap *)

(** C2. With shift held the end point is kept. Otherwise, with [dx] and
    [dy] the absolute differences to the anchor: [dx > 10 * dy] gives
    (end.x, start.y), else [dy > 10 * dx] gives (start.x, end.y), else
    the end point is kept; so [dx = 100, dy = 9] snaps to the horizontal
    and [dx = 100, dy = 11] keeps the end point. *)
Theorem snap_axis_cases (start end_ : QPoint) (freeform : bool) :
  let dx := Z.abs (px end_ - px start) in
  let dy := Z.abs (py end_ - py start) in
  (freeform = true → snap_axis start end_ freeform = end_)
  ∧ (freeform = false → dx > 10 * dy →
       snap_axis start end_ freeform = mkQPoint (px end_) (py start))
  ∧ (freeform = false → ¬ dx > 10 * dy → dy > 10 * dx →
       snap_axis start end_ freeform = mkQPoint (px start) (py end_))
  ∧ (freeform = false → ¬ dx > 10 * dy → ¬ dy > 10 * dx →
       snap_axis start end_ freeform = end_)
  ∧ (freeform = false → dx = 100 → dy = 9 →
       snap_axis start end_ freeform = mkQPoint (px end_) (py start))
  ∧ (freeform = false → dx = 100 → dy = 11 →
       snap_axis start end_ freeform = end_).
Proof.
  intros dx dy. unfold snap_axis. fold dx dy.
  split_and!; intros; subst freeform; try done;
    repeat (match goal with
            | |- context [?a <? ?b] => destruct (Z.ltb_spec a b)
            end; try lia; try done).
Qed.

Lemma snap_axis_cases_witness :
  snap_axis (mkQPoint 0 0) (mkQPoint 100 9) false = mkQPoint 100 0
  ∧ snap_axis (mkQPoint 0 0) (mkQPoint 100 11) false = mkQPoint 100 11
  ∧ snap_axis (mkQPoint 0 0) (mkQPoint 3 100) false = mkQPoint 0 100
  ∧ snap_axis (mkQPoint 0 0) (mkQPoint 100 9) true = mkQPoint 100 9.
Proof.
  split_and!.
  - destruct (snap_axis_cases (mkQPoint 0 0) (mkQPoint 100 9) false)
      as (_ & _ & _ & _ & H & _).
    apply H; reflexivity.
  - destruct (snap_axis_cases (mkQPoint 0 0) (mkQPoint 100 11) false)
      as (_ & _ & _ & _ & _ & H).
    apply H; reflexivity.
  - destruct (snap_axis_cases (mkQPoint 0 0) (mkQPoint 3 100) false)
      as (_ & _ & H & _).
    apply H; [reflexivity|simpl; lia|simpl; lia].
  - destruct (snap_axis_cases (mkQPoint 0 0) (mkQPoint 100 9) true) as (H & _).
    apply H; reflexivity.
Defined.

(** ** The ruler *)

(** C3, where the code departs from it. A right-click at the screen
    origin (0, 0) in the normal mode starts a ruler whose anchor is a
    null QPoint, which [finish_ruler] takes for "no anchor": the next
    click, wherever it is, leaves the overlay in the ruler mode with the
    anchor still set, and no item is made. *)
Theorem ruler_anchored_at_origin_stays_open (e1 e2 : Env) (button : MouseButton)
    (pos : QPoint) (w : World) :
  capture_mode (overlay w) = normal →
  ∃ w', run [(e1, MousePress RightButton (mkQPoint 0 0));
             (e2, MousePress button pos)] w = Some w'
        ∧ capture_mode (overlay w') = ruler
        ∧ ruler_start (overlay w') = Some (mkQPoint 0 0)
        ∧ session_items (overlay w') = session_items (overlay w)
        ∧ heap w' = heap w
        ∧ main_window w' = main_window w.
Proof.
  intros Hmode. simpl. unfold mousePressEvent at 2. rewrite Hmode. simpl.
  unfold mousePressEvent. simpl.
  destruct button; simpl; eexists; (split; [reflexivity|done]).
Qed.

Lemma ruler_anchored_at_origin_stays_open_witness :
  ∃ w', run [(sample_env, MousePress RightButton (mkQPoint 0 0));
             (sample_env, MousePress LeftButton (mkQPoint 50 0))]
            (start_capture ∅ empty_main_window) = Some w'
        ∧ capture_mode (overlay w') = ruler
        ∧ ruler_start (overlay w') = Some (mkQPoint 0 0)
        ∧ session_items (overlay w') = []
        ∧ heap w' = ∅
        ∧ main_window w' = main_window (start_capture ∅ empty_main_window).
Proof.
  apply (ruler_anchored_at_origin_stays_open sample_env sample_env LeftButton
           (mkQPoint 50 0) (start_capture ∅ empty_main_window)).
  reflexivity.
Defined.

(** The scenario of the specification: anchor (100,100), raw end
    (250,103), no shift. *)
Lemma ruler_scenario :
  ∃ w' item m,
    run [(sample_env, MousePress RightButton (mkQPoint 100 100));
         (sample_env, MousePress LeftButton (mkQPoint 250 103))]
        (start_capture ∅ empty_main_window) = Some w'
    ∧ capture_mode (overlay w') = normal
    ∧ ruler_start (overlay w') = None
    ∧ session_items (overlay w') = [item]
    ∧ heap w' = {[ item := IMeasurement m ]}
    ∧ (mi_x1 m, mi_y1 m, mi_x2 m, mi_y2 m) = (100, 100, 250, 100)
    ∧ mi_distance m = Py.PFloat f150
    ∧ mi_auto_aligned m = true
    ∧ mi_name m = "Measurement 150px".
Proof.
  eexists _, _, _. split; [vm_compute; reflexivity|].
  split_and!; try reflexivity.
Qed.

(** Any other anchor: the second click ends the ruler with one new item,
    provided the distance is a finite number. *)
Lemma ruler_two_clicks (e1 e2 : Env) (button : MouseButton) (start pos : QPoint)
    (w : World) (dist : Py.Num) (n : Z) :
  capture_mode (overlay w) = normal →
  isNull start = false →
  button ≠ MiddleButton →
  let end_ := snap_axis start pos (shift_pressed (overlay w)) in
  euclid (Py.PInt (px end_)) (Py.PInt (py end_))
         (Py.PInt (px start)) (Py.PInt (py start)) = Some dist →
  Py.to_int dist = Some n →
  ∃ w' item,
    run [(e1, MousePress RightButton start); (e2, MousePress button pos)] w = Some w'
    ∧ capture_mode (overlay w') = normal
    ∧ ruler_start (overlay w') = None
    ∧ session_items (overlay w') = session_items (overlay w) ++ [item]
    ∧ item ∉ dom (heap w).
Proof.
  intros Hmode Hnull Hbutton end_ Hdist Hn.
  set (w1 := with_overlay (λ o, add_notification e1 "Ruler Mode: Click to end"
                            (set_ruler_start (Some start) (set_capture_mode ruler o))) w).
  assert (H1 : mousePressEvent e1 RightButton start w = Some w1).
  { unfold mousePressEvent. by rewrite Hmode. }
  assert (H2 : mousePressEvent e2 button pos w1 = finish_ruler e2 pos w1).
  { unfold mousePressEvent. by destruct button. }
  assert (Hfin : ∃ w' item,
    finish_ruler e2 pos w1 = Some w'
    ∧ capture_mode (overlay w') = normal
    ∧ ruler_start (overlay w') = None
    ∧ session_items (overlay w') = session_items (overlay w) ++ [item]
    ∧ item ∉ dom (heap w)).
  { unfold finish_ruler. simpl. rewrite Hnull. fold end_. rewrite Hdist. simpl.
    unfold add_measurement, MeasurementItem_init. rewrite Hn. simpl.
    unfold add_to_tree_root, create_tree_item. simpl. rewrite Hn. simpl.
    destruct (save_data _ _) as [h2 mw2]. simpl.
    eexists _, _. split; [reflexivity|]. simpl.
    split_and!; [done|done|reflexivity|apply is_fresh]. }
  destruct Hfin as (w' & item & Hw' & ?).
  exists w', item. split; [|done].
  simpl. rewrite H1. simpl. rewrite H2, Hw'. done.
Qed.

(** ** The scenario of the hit tester *)

(** From (105,100) the point (100,100) is at distance exactly 5.0, which
    is below 7: it is not about 7.07. *)
Lemma point_distance_is_five :
  item_distance (mkQPoint 105 100) (ICoordinate (mkCoordinateItem 100 100 "" ""))
    = Some (Py.PFloat f5)
  ∧ Py.le (Py.PFloat f5) (Py.PInt 5) = true
  ∧ Py.le (Py.PInt 5) (Py.PFloat f5) = true
  ∧ Py.lt (Py.PFloat f5) (Py.PInt 7) = true.
Proof. split_and!; vm_compute; reflexivity. Qed.

(** C5, as the code has it. At the query point (105,100), a
    CoordinateItem at (100,100) is at distance exactly 5.0 and a
    MeasurementItem from (0,0) to (200,200) at a distance between 3.53
    and 3.54; the segment is nearer and within the threshold, and the
    hit tester returns its index, 1. *)
Theorem nearest_of_point_and_segment (c : CoordinateItem) (m : MeasurementItem) :
  (ci_x c, ci_y c) = (100, 100) →
  (mi_x1 m, mi_y1 m, mi_x2 m, mi_y2 m) = (0, 0, 200, 200) →
  let pos := mkQPoint 105 100 in
  item_distance pos (ICoordinate c) = Some (Py.PFloat f5)
  ∧ Py.le (Py.PFloat f5) (Py.PInt 5) = true
  ∧ Py.le (Py.PInt 5) (Py.PFloat f5) = true
  ∧ (∃ d q, item_distance pos (IMeasurement m) = Some d
            ∧ Py.value d = Py.XFin q
            ∧ (353 # 100 < q)%Q ∧ (q < 354 # 100)%Q
            ∧ Py.lt d (Py.PFloat f5) = true
            ∧ Py.lt d limit = true)
  ∧ nearest_index pos [ICoordinate c; IMeasurement m] = Some 1.
Proof.
  intros Hc Hm pos. destruct c as [cx cy cn ct], m as [x1 y1 x2 y2 dd mn mt ma].
  simpl in Hc, Hm. simplify_eq.
  split_and!; [vm_compute; reflexivity..| |vm_compute; reflexivity].
  eexists _, _. split; [vm_compute; reflexivity|].
  split; [vm_compute; reflexivity|].
  split_and!; vm_compute; reflexivity.
Qed.

Lemma nearest_of_point_and_segment_witness :
  nearest_index (mkQPoint 105 100)
    [ICoordinate (mkCoordinateItem 100 100 "Point (100, 100)" "");
     IMeasurement (mkMeasurementItem 0 0 200 200 (Py.PInt 282) "" "" false)]
  = Some 1.
Proof.
  apply (nearest_of_point_and_segment
           (mkCoordinateItem 100 100 "Point (100, 100)" "")
           (mkMeasurementItem 0 0 200 200 (Py.PInt 282) "" "" false));
    reflexivity.
Defined.

(** ** Notifications *)


(** ** Delete and rename in the edit mode *)

Lemma py_getitem_nat {A} (l : list A) (i : nat) x :
  l !! i = Some x →
  py_getitem l (Z.of_nat i) = Some x ∧ py_delitem l (Z.of_nat i) = Some (delete i l).
Proof.
  intros H. pose proof (lookup_lt_Some _ _ _ H) as Hlt.
  unfold py_getitem, py_delitem, py_index.
  destruct (Z.leb_spec 0 (Z.of_nat i)); [|lia].
  destruct (Z.ltb_spec (Z.of_nat i) (Z.of_nat (length l))); [|lia].
  simpl. by rewrite Nat2Z.id.
Qed.

(** C7. Delete in the edit mode on a selected item returns; the host's
    [remove_item_by_reference] decides: on [False] the overlay, with its
    session list and selection, is unchanged, on [True] the item is
    taken out of the session list and the selection is cleared. *)
Theorem delete_checks_host_answer (e : Env) (w : World) (i : nat) (item : ref) :
  capture_mode (overlay w) = edit →
  selected_item_index (overlay w) = Z.of_nat i →
  session_items (overlay w) !! i = Some item →
  ∃ w', keyPressEvent e Key_Delete w = Some w'
    ∧ heap w' = (remove_item_by_reference (heap w) (main_window w) item).1.2
    ∧ main_window w' = (remove_item_by_reference (heap w) (main_window w) item).2
    ∧ if (remove_item_by_reference (heap w) (main_window w) item).1.1
      then session_items (overlay w') = delete i (session_items (overlay w))
           ∧ selected_item_index (overlay w') = -1
           ∧ capture_mode (overlay w') = edit
      else overlay w' = overlay w.
Proof.
  intros Hmode Hsel Hitem.
  unfold keyPressEvent. simpl. rewrite decide_True by (rewrite Hsel; split; [done|lia]).
  unfold delete_current_selection. rewrite Hsel.
  destruct (py_getitem_nat _ _ _ Hitem) as [-> ->]. simpl.
  destruct (remove_item_by_reference _ _ _) as [[[] h] mw]; simpl; eauto 10.
Qed.

Lemma delete_checks_host_answer_witness :
  ∃ w', keyPressEvent sample_env Key_Delete sample_edit_world = Some w'
    ∧ session_items (overlay w') = []
    ∧ selected_item_index (overlay w') = -1
    ∧ tree (main_window w') = [].
Proof.
  destruct (delete_checks_host_answer sample_env sample_edit_world 0 1%positive)
    as (w' & Hw' & _ & Hmw & Hov); [reflexivity..|].
  exists w'. split; [exact Hw'|].
  change ((remove_item_by_reference (heap sample_edit_world)
             (main_window sample_edit_world) 1%positive).1.1) with true in Hov.
  destruct Hov as (-> & -> & _). rewrite Hmw. split_and!; reflexivity.
Defined.

Lemma rename_declined (e : Env) (w : World) (i : nat) (item : ref) :
  capture_mode (overlay w) = edit →
  selected_item_index (overlay w) = Z.of_nat i →
  session_items (overlay w) !! i = Some item →
  (prompt e).2 && negb (String.eqb (prompt e).1 "") = false →
  keyPressEvent e Key_R w
    = Some (mkWorld (heap w) (main_window w) (set_keyboard_grabbed true (overlay w))).
Proof.
  intros Hmode Hsel Hitem Hprompt.
  unfold keyPressEvent. simpl. rewrite decide_True by (rewrite Hsel; split; [done|lia]).
  unfold rename_current_selection. rewrite Hsel.
  destruct (py_getitem_nat _ _ _ Hitem) as [-> _]. simpl.
  destruct (prompt e) as [text ok]. simpl in Hprompt. by rewrite Hprompt.
Qed.

(** C10. Rename in the edit mode, confirmed with an empty text: the
    objects and the main window are unchanged, no notification is
    pushed (only the keyboard grab was released and taken again), and
    the outcome is that of a cancelled prompt. *)
Theorem rename_with_empty_text (e : Env) (w : World) (i : nat) (item : ref) :
  capture_mode (overlay w) = edit →
  selected_item_index (overlay w) = Z.of_nat i →
  session_items (overlay w) !! i = Some item →
  prompt e = ("", true) →
  ∃ w', keyPressEvent e Key_R w = Some w'
    ∧ heap w' = heap w
    ∧ main_window w' = main_window w
    ∧ overlay w' = set_keyboard_grabbed true (overlay w)
    ∧ notifications (overlay w') = notifications (overlay w)
    ∧ ∀ e' text, prompt e' = (text, false) →
        keyPressEvent e' Key_R w = Some w'.
Proof.
  intros Hmode Hsel Hitem Hprompt. eexists. split.
  - eapply rename_declined; [done..|]. by rewrite Hprompt.
  - split_and!; try done.
    intros e' text He'. eapply rename_declined; [done..|]. by rewrite He'.
Qed.

Lemma rename_with_empty_text_witness :
  ∃ w', keyPressEvent sample_env Key_R sample_edit_world = Some w'
    ∧ heap w' = heap sample_edit_world
    ∧ main_window w' = main_window sample_edit_world
    ∧ notifications (overlay w') = [].
Proof.
  destruct (rename_with_empty_text sample_env sample_edit_world 0 1%positive)
    as (w' & Hw' & Hh & Hmw & _ & Hn & _); [reflexivity..|].
  exists w'. split_and!; [exact Hw'|exact Hh|exact Hmw|exact Hn].
Defined.

(** ** The selection invariant *)

Lemma selection_ok_unselected o :
  selected_item_index o = -1 → selection_ok o.
Proof. intros H. split; auto. Qed.

Lemma finish_ruler_selection_ok e pos w w' :
  capture_mode (overlay w) ≠ edit →
  selection_ok (overlay w) → finish_ruler e pos w = Some w' →
  selection_ok (overlay w').
Proof.
  intros Hmode [_ Hsel] H. specialize (Hsel Hmode).
  unfold finish_ruler in H.
  destruct (ruler_start (overlay w)) as [start|]; [|by simplify_eq; apply selection_ok_unselected].
  destruct (isNull start); [by simplify_eq; apply selection_ok_unselected|].
  destruct (euclid _ _ _ _) as [dist|]; [simpl in H|done].
  destruct (add_measurement _ _ _ _ _ _ _ _ _) as [[[item h] mw]|]; [simpl in H|done].
  destruct (Py.to_int dist); [simpl in H|done].
  simplify_eq. by apply selection_ok_unselected.
Qed.

Lemma select_nearest_item_selection_ok pos w w' :
  capture_mode (overlay w) = edit →
  select_nearest_item pos w = Some w' → selection_ok (overlay w').
Proof.
  intros Hmode H. unfold select_nearest_item in H.
  destruct (mapM _ _) as [items|] eqn:Eitems; [simpl in H|done].
  destruct (nearest_index pos items) as [r|] eqn:Er; [simpl in H|done].
  simplify_eq. apply select_loop_range in Er.
  apply length_mapM in Eitems.
  split; simpl; [lia|]. intros Hne. by rewrite Hmode in Hne.
Qed.

Lemma mousePressEvent_selection_ok e button pos w w' :
  selection_ok (overlay w) → mousePressEvent e button pos w = Some w' →
  selection_ok (overlay w').
Proof.
  intros Hok H. unfold mousePressEvent in H.
  destruct (capture_mode (overlay w)) eqn:Hmode.
  - destruct button; [| |by simplify_eq].
    + destruct (add_coordinate _ _ _ _ _) as [[[item h] mw]|]; [simpl in H|done].
      simplify_eq. apply selection_ok_unselected. simpl.
      apply Hok. by rewrite Hmode.
    + simplify_eq. apply selection_ok_unselected. simpl.
      apply Hok. by rewrite Hmode.
  - destruct button; [| |by simplify_eq];
      (eapply finish_ruler_selection_ok; [|done|done]; by rewrite Hmode).
  - destruct button; try by simplify_eq.
    by eapply select_nearest_item_selection_ok.
Qed.

Lemma delete_current_selection_selection_ok e w w' :
  selection_ok (overlay w) → delete_current_selection e w = Some w' →
  selection_ok (overlay w').
Proof.
  intros Hok H. unfold delete_current_selection in H.
  destruct (py_getitem _ _) as [item|]; [simpl in H|done].
  destruct (remove_item_by_reference _ _ _) as [[[] h] mw].
  - destruct (py_delitem _ _) as [items|]; [simpl in H|done].
    simplify_eq. by apply selection_ok_unselected.
  - by simplify_eq.
Qed.

Lemma rename_current_selection_selection_ok e w w' :
  selection_ok (overlay w) → rename_current_selection e w = Some w' →
  selection_ok (overlay w').
Proof.
  intros Hok H. unfold rename_current_selection in H.
  destruct (py_getitem _ _) as [item|]; [simpl in H|done].
  destruct (prompt e) as [text ok].
  destruct (ok && negb (text =? "")%string).
  - destruct (rename_item_by_reference _ _ _ _) as [[? h] mw]. by simplify_eq.
  - by simplify_eq.
Qed.

Lemma keyPressEvent_selection_ok e key w w' :
  selection_ok (overlay w) → keyPressEvent e key w = Some w' →
  selection_ok (overlay w').
Proof.
  intros Hok H. unfold keyPressEvent in H.
  set (w1 := match key with Key_Shift => _ | _ => _ end) in H.
  assert (Hok1 : selection_ok (overlay w1)).
  { subst w1. destruct key; try done;
      destruct (capture_mode (overlay w)) eqn:Hmode; try done;
      try (by apply selection_ok_unselected);
      apply selection_ok_unselected; simpl; apply Hok; by rewrite Hmode. }
  clearbody w1. case_decide; [|by simplify_eq].
  destruct key; try by simplify_eq.
  - by eapply delete_current_selection_selection_ok.
  - by eapply rename_current_selection_selection_ok.
Qed.

Lemma reachable_run evs : ∀ w w',
  reachable w → run evs w = Some w' → reachable w'.
Proof.
  induction evs as [|[e ev] evs IH]; intros w w' Hw; simpl.
  - by intros [= <-].
  - destruct (handle e ev w) as [w1|] eqn:E; [simpl|done].
    apply IH. by eapply reachable_step.
Qed.

(** C9. In every state of a capture run, [selected_item_index] is -1 or
    an index of the session list, and it is -1 whenever the capture mode
    is not "edit". *)
Theorem selected_index_invariant (w : World) :
  reachable w →
  (selected_item_index (overlay w) = -1
   ∨ 0 ≤ selected_item_index (overlay w)
       < Z.of_nat (length (session_items (overlay w))))
  ∧ (capture_mode (overlay w) ≠ edit → selected_item_index (overlay w) = -1).
Proof.
  induction 1 as [h mw|w e ev w' _ IH Hstep].
  - by apply selection_ok_unselected.
  - destruct ev; simpl in Hstep.
    + by simplify_eq.
    + by eapply mousePressEvent_selection_ok.
    + by eapply keyPressEvent_selection_ok.
    + simplify_eq. by destruct key.
    + by simplify_eq.
Qed.

Lemma selected_index_invariant_witness :
  ∃ w, run [(sample_env, MousePress LeftButton (mkQPoint 0 0));
            (sample_env, KeyPress Key_E);
            (sample_env, MousePress LeftButton (mkQPoint 3 4))]
           (start_capture ∅ empty_main_window) = Some w
       ∧ selected_item_index (overlay w) = 0
       ∧ ((selected_item_index (overlay w) = -1
           ∨ 0 ≤ selected_item_index (overlay w)
               < Z.of_nat (length (session_items (overlay w))))
          ∧ (capture_mode (overlay w) ≠ edit → selected_item_index (overlay w) = -1)).
Proof.
  eexists. split; [vm_compute; reflexivity|]. split; [reflexivity|].
  apply selected_index_invariant.
  apply (reachable_run
           [(sample_env, MousePress LeftButton (mkQPoint 0 0));
            (sample_env, KeyPress Key_E);
            (sample_env, MousePress LeftButton (mkQPoint 3 4))]
           (start_capture ∅ empty_main_window));
    [apply reachable_start|vm_compute; reflexivity].
Defined.

(** * More of the program *)

(** ** What a save keeps *)

Lemma TreeItem_forall_ind (P : TreeItem → Prop) :
  (∀ text0 text1 data expanded children,
     Forall P children → P (TreeNode text0 text1 data expanded children)) →
  ∀ t, P t.
Proof.
  intros H. fix IH 1. intros [text0 text1 data expanded children]. apply H.
  induction children as [|c cs IHcs]; constructor; [apply IH|apply IHcs].
Qed.

Lemma same_data_refl a : same_data a a.
Proof. by destruct a. Qed.

Lemma same_data_trans a b c : same_data a b → same_data b c → same_data a c.
Proof. destruct a, b, c; simpl; intuition congruence. Qed.

Lemma same_objects_refl h : same_objects h h.
Proof. intros r. destruct (h !! r); [apply same_data_refl|done]. Qed.

Lemma same_objects_trans h1 h2 h3 :
  same_objects h1 h2 → same_objects h2 h3 → same_objects h1 h3.
Proof.
  intros H12 H23 r. specialize (H12 r). specialize (H23 r).
  destruct (h1 !! r), (h2 !! r), (h3 !! r); try done. by eapply same_data_trans.
Qed.

Lemma same_objects_alter (f : Item → Item) r h :
  (∀ it, same_data it (f it)) → same_objects h (alter f r h).
Proof.
  intros Hf r'. destruct (decide (r = r')) as [->|Hne].
  - rewrite lookup_alter_eq. destruct (h !! r'); simpl; [apply Hf|done].
  - rewrite lookup_alter_ne by done. destruct (h !! r'); [apply same_data_refl|done].
Qed.

Lemma same_data_set_name s it : same_data it (set_name s it).
Proof. by destruct it. Qed.
Lemma same_data_set_folder_view e s it : same_data it (set_folder_view e s it).
Proof. by destruct it. Qed.
Lemma same_data_set_items l it : same_data it (set_items l it).
Proof. by destruct it. Qed.

Lemma serialize_item_unfold h text0 text1 data expanded children :
  serialize_item h (TreeNode text0 text1 data expanded children) =
    match h !! data with
    | Some (IFolder _) =>
        let h1 := alter (set_folder_view expanded (clean_name text0)) data h in
        let '(h2, items) := _serialize_tree h1 children in
        (alter (set_items items) data h2, data)
    | _ => (alter (set_name (clean_name text0)) data h, data)
    end.
Proof. reflexivity. Qed.

Lemma serialize_same_objects t : ∀ h, same_objects h (serialize_item h t).1.
Proof.
  induction t as [text0 text1 data expanded children IH] using TreeItem_forall_ind.
  intros h. rewrite serialize_item_unfold.
  assert (Hcs : ∀ h, same_objects h (_serialize_tree h children).1).
  { clear h. induction IH as [|c cs Hc _ IHcs]; intros h; simpl.
    - apply same_objects_refl.
    - specialize (Hc h). destruct (serialize_item h c) as [h' r].
      specialize (IHcs h'). destruct (_serialize_tree h' cs) as [h'' rs].
      simpl in *. by eapply same_objects_trans. }
  destruct (h !! data) as [[| |f]|] eqn:E; simpl;
    try apply same_objects_alter, same_data_set_name.
  specialize (Hcs (alter (set_folder_view expanded (clean_name text0)) data h)).
  destruct (_serialize_tree _ children) as [h2 items]. simpl in *.
  eapply same_objects_trans; [apply same_objects_alter, same_data_set_folder_view|].
  eapply same_objects_trans; [done|]. apply same_objects_alter, same_data_set_items.
Qed.

Lemma serialize_tree_same_objects cs : ∀ h, same_objects h (_serialize_tree h cs).1.
Proof.
  induction cs as [|c cs IH]; intros h; simpl; [apply same_objects_refl|].
  pose proof (serialize_same_objects c h) as Hc.
  destruct (serialize_item h c) as [h' r].
  specialize (IH h'). destruct (_serialize_tree h' cs) as [h'' rs].
  simpl in *. by eapply same_objects_trans.
Qed.

Lemma serialize_tree_refs cs : ∀ h, (_serialize_tree h cs).2 = map ti_data cs.
Proof.
  induction cs as [|c cs IH]; intros h; simpl; [done|].
  destruct c as [text0 text1 data expanded children].
  assert ((serialize_item h (TreeNode text0 text1 data expanded children)).2 = data) as Hd.
  { rewrite serialize_item_unfold. destruct (h !! data) as [[]|]; try done.
    simpl. by destruct (_serialize_tree _ children). }
  destruct (serialize_item h _) as [h' r]. simpl in Hd. subst r.
  specialize (IH h'). destruct (_serialize_tree h' cs) as [h'' rs]. simpl in *.
  by rewrite IH.
Qed.

Lemma save_data_same_objects h mw :
  same_objects h (save_data h mw).1
  ∧ tree (save_data h mw).2 = tree mw
  ∧ root_items (save_data h mw).2 = map ti_data (tree mw)
  ∧ mw_visible (save_data h mw).2 = mw_visible mw.
Proof.
  unfold save_data.
  pose proof (serialize_tree_same_objects (tree mw) h) as H1.
  pose proof (serialize_tree_refs (tree mw) h) as H2.
  destruct (_serialize_tree h (tree mw)) as [h' items]. simpl in *. by subst.
Qed.

(** ** The session list and the objects *)

Lemma same_objects_captured h h' r it :
  same_objects h h' → h !! r = Some it → captured it →
  ∃ it', h' !! r = Some it' ∧ captured it' ∧ same_data it it'.
Proof.
  intros H Hr Hc. specialize (H r). rewrite Hr in H.
  destruct (h' !! r) as [it'|]; [|done]. exists it'. split; [done|].
  split; [|done]. by destruct it, it'.
Qed.

Lemma remove_item_same_objects h mw r :
  same_objects h (remove_item_by_reference h mw r).1.2.
Proof.
  unfold remove_item_by_reference.
  destruct (replace_first r _ (tree mw)) as [tr|]; [|apply same_objects_refl].
  pose proof (save_data_same_objects h (recalculate_folder_counts h (set_tree tr mw)))
    as [H _].
  by destruct (save_data _ _).
Qed.

Lemma rename_item_same_objects h mw r s :
  same_objects h (rename_item_by_reference h mw r s).1.2.
Proof.
  unfold rename_item_by_reference.
  destruct (replace_first r _ (tree mw)) as [tr|]; [|apply same_objects_refl].
  pose proof (save_data_same_objects (alter (set_name s) r h) (set_tree tr mw))
    as [H _].
  destruct (save_data _ _). simpl in *.
  eapply same_objects_trans; [|done]. apply same_objects_alter, same_data_set_name.
Qed.

(** A new object: after the save it is in the store with its data, and
    the objects that were there keep theirs. *)
Lemma alloc_save_objects h mw it :
  let r := fresh (dom h) in
  let h2 := (save_data (<[r := it]> h) mw).1 in
  h !! r = None
  ∧ (∃ it', h2 !! r = Some it' ∧ same_data it it')
  ∧ ∀ r' a, h !! r' = Some a → ∃ a', h2 !! r' = Some a' ∧ same_data a a'.
Proof.
  intros r h2.
  assert (Hr : h !! r = None) by (apply not_elem_of_dom, is_fresh).
  pose proof (save_data_same_objects (<[r := it]> h) mw) as [H _]. fold h2 in H.
  split; [done|]. split.
  - specialize (H r). rewrite lookup_insert_eq in H.
    destruct (h2 !! r) as [it'|]; [|done]. by exists it'.
  - intros r' a Ha. specialize (H r').
    rewrite lookup_insert_ne in H by congruence. rewrite Ha in H.
    destruct (h2 !! r') as [a'|]; [|done]. by exists a'.
Qed.

Lemma session_live_append w h2 mw2 o2 r it :
  session_live w →
  heap w !! r = None →
  (∃ it', h2 !! r = Some it' ∧ same_data it it') → captured it →
  (∀ r' a, heap w !! r' = Some a → ∃ a', h2 !! r' = Some a' ∧ same_data a a') →
  session_items o2 = session_items (overlay w) ++ [r] →
  session_live (mkWorld h2 mw2 o2).
Proof.
  intros [Hnd Hlive] Hfresh (it' & Hit' & Hsame) Hcap Hold Hs.
  unfold session_live. simpl. rewrite Hs. split.
  - apply NoDup_app. split; [done|]. split; [|apply NoDup_singleton].
    intros x Hx ->%list_elem_of_singleton.
    destruct (Hlive _ Hx) as (? & ? & _). congruence.
  - intros x [Hx| ->%list_elem_of_singleton]%elem_of_app.
    + destruct (Hlive _ Hx) as (a & Ha & Hca).
      destruct (Hold _ _ Ha) as (a' & Ha' & Hs'). exists a'. split; [done|].
      by destruct a, a'.
    + exists it'. split; [done|]. by destruct it, it'.
Qed.

Lemma session_live_same_objects w h2 mw2 o2 :
  session_live w → same_objects (heap w) h2 →
  session_items o2 `sublist_of` session_items (overlay w) →
  session_live (mkWorld h2 mw2 o2).
Proof.
  intros [Hnd Hlive] Hsame Hsub. split; simpl.
  - by eapply sublist_NoDup.
  - intros r Hr. destruct (Hlive r) as (a & Ha & Hca).
    { by eapply elem_of_sublist. }
    destruct (same_objects_captured _ _ _ _ Hsame Ha Hca) as (a' & ? & ? & _). eauto.
Qed.

Lemma session_live_overlay w f :
  session_items (f (overlay w)) = session_items (overlay w) →
  session_live w → session_live (with_overlay f w).
Proof.
  intros Hs Hw. destruct w as [h mw o]. simpl in *.
  eapply (session_live_same_objects (mkWorld h mw o));
    [done|apply same_objects_refl|]. simpl. by rewrite Hs.
Qed.

Lemma add_coordinate_result h mw x y now :
  let r := fresh (dom h) in
  let it := ICoordinate (CoordinateItem_init x y (Some "") None now) in
  ∃ tree_item,
    create_tree_item r it = Some tree_item ∧
    add_coordinate h mw x y now =
      Some (r, (save_data (<[r := it]> h) (set_tree (tree mw ++ [tree_item]) mw)).1,
               (save_data (<[r := it]> h) (set_tree (tree mw ++ [tree_item]) mw)).2).
Proof.
  intros r it. eexists. split; [reflexivity|].
  unfold add_coordinate, alloc, add_to_tree_root. simpl.
  by destruct (save_data _ _).
Qed.

Lemma add_measurement_result h mw x1 y1 x2 y2 dist aligned now r' h' mw' :
  add_measurement h mw x1 y1 x2 y2 dist aligned now = Some (r', h', mw') →
  ∃ m tree_item,
    MeasurementItem_init x1 y1 x2 y2 dist (Some "") None aligned now = Some m
    ∧ create_tree_item (fresh (dom h)) (IMeasurement m) = Some tree_item
    ∧ r' = fresh (dom h)
    ∧ h' = (save_data (<[fresh (dom h) := IMeasurement m]> h)
                      (set_tree (tree mw ++ [tree_item]) mw)).1
    ∧ mw' = (save_data (<[fresh (dom h) := IMeasurement m]> h)
                       (set_tree (tree mw ++ [tree_item]) mw)).2.
Proof.
  intros H. unfold add_measurement in H.
  destruct (MeasurementItem_init _ _ _ _ _ _ _ _ _) as [m|]; [simpl in H|done].
  unfold alloc, add_to_tree_root in H.
  destruct (create_tree_item _ (IMeasurement m)) as [ti|] eqn:Eti; [simpl in H|done].
  exists m, ti. destruct (save_data _ _) as [h2 mw2] eqn:Es. by simplify_eq.
Qed.

Lemma finish_ruler_session_live e pos w w' :
  session_live w → finish_ruler e pos w = Some w' → session_live w'.
Proof.
  intros Hw H. unfold finish_ruler in H.
  destruct (ruler_start (overlay w)) as [start|]; [|by simplify_eq].
  destruct (isNull start); [by simplify_eq|].
  destruct (euclid _ _ _ _) as [dist|]; [simpl in H|done].
  destruct (add_measurement _ _ _ _ _ _ _ _ _) as [[[item h] mw]|] eqn:Ea;
    [simpl in H|done].
  destruct (Py.to_int dist); [simpl in H|done]. simplify_eq.
  apply add_measurement_result in Ea as (m & ti & _ & _ & -> & -> & ->).
  destruct (alloc_save_objects (heap w) (set_tree (tree (main_window w) ++ [ti])
              (main_window w)) (IMeasurement m)) as (Hf & Hnew & Hold).
  eapply session_live_append; eauto. done.
Qed.

Lemma mousePressEvent_session_live e button pos w w' :
  session_live w → mousePressEvent e button pos w = Some w' → session_live w'.
Proof.
  intros Hw H. unfold mousePressEvent in H.
  destruct (capture_mode (overlay w)) eqn:Hmode.
  - destruct button; [| |by simplify_eq].
    + destruct (add_coordinate_result (heap w) (main_window w)
                  (px (cursor_pos (overlay w))) (py (cursor_pos (overlay w)))
                  (now_iso e)) as (ti & _ & Ea).
      rewrite Ea in H. simpl in H. simplify_eq.
      destruct (alloc_save_objects (heap w) (set_tree (tree (main_window w) ++ [ti])
                  (main_window w))
                  (ICoordinate (CoordinateItem_init (px (cursor_pos (overlay w)))
                     (py (cursor_pos (overlay w))) (Some "") None (now_iso e))))
        as (Hf & Hnew & Hold).
      eapply session_live_append; eauto. done.
    + simplify_eq. by apply session_live_overlay.
  - destruct button; [| |by simplify_eq]; by eapply finish_ruler_session_live.
  - destruct button; try by simplify_eq.
    unfold select_nearest_item in H.
    destruct (mapM _ _); [simpl in H|done].
    destruct (nearest_index _ _); [simpl in H|done]. simplify_eq.
    by apply session_live_overlay.
Qed.

Lemma keyPressEvent_session_live e key w w' :
  session_live w → keyPressEvent e key w = Some w' → session_live w'.
Proof.
  intros Hw H. unfold keyPressEvent in H.
  set (w1 := match key with Key_Shift => _ | _ => _ end) in H.
  assert (Hw1 : session_live w1).
  { subst w1. destruct key; try done; try (by apply session_live_overlay);
      destruct (capture_mode (overlay w)); try (by apply session_live_overlay);
      destruct w as [h mw o]; by destruct Hw. }
  clearbody w1. case_decide; [|by simplify_eq].
  destruct key; try by simplify_eq.
  - unfold delete_current_selection in H.
    destruct (py_getitem _ _) as [item|]; [simpl in H|done].
    pose proof (remove_item_same_objects (heap w1) (main_window w1) item) as Hs.
    destruct (remove_item_by_reference _ _ _) as [[[] h] mw]; simpl in Hs.
    + destruct (py_delitem _ _) as [items|] eqn:Ed; [simpl in H|done]. simplify_eq.
      eapply session_live_same_objects; [done..|]. simpl.
      unfold py_delitem in Ed. destruct (py_index _ _); simplify_eq/=.
      apply sublist_delete.
    + simplify_eq. by eapply session_live_same_objects.
  - unfold rename_current_selection in H.
    destruct (py_getitem _ _) as [item|]; [simpl in H|done].
    destruct (prompt e) as [text ok].
    destruct (ok && negb (text =? "")%string).
    + pose proof (rename_item_same_objects (heap w1) (main_window w1) item text) as Hs.
      destruct (rename_item_by_reference _ _ _ _) as [[? h] mw]. simplify_eq.
      by eapply session_live_same_objects.
    + simplify_eq. destruct w1 as [h mw o].
      by eapply (session_live_same_objects (mkWorld h mw o)); [|apply same_objects_refl|].
Qed.

Lemma handle_session_live e ev w w' :
  session_live w → handle e ev w = Some w' → session_live w'.
Proof.
  intros Hw H. destruct ev; simpl in H.
  - simplify_eq. by apply session_live_overlay.
  - by eapply mousePressEvent_session_live.
  - by eapply keyPressEvent_session_live.
  - simplify_eq. destruct key; try done; by apply session_live_overlay.
  - simplify_eq. by apply session_live_overlay.
Qed.

Lemma reachable_session_live w : reachable w → session_live w.
Proof.
  induction 1 as [h mw|w e ev w' _ IH Hstep].
  - split; [apply NoDup_nil_2|]. intros r Hr. by apply elem_of_nil in Hr.
  - by eapply handle_session_live.
Qed.

(** X1. In a capture run the session list names distinct objects, each of
    them live and a point or a measurement: no object is listed twice
    and none is a folder. *)
Theorem session_items_live (w : World) :
  reachable w →
  NoDup (session_items (overlay w))
  ∧ ∀ r, r ∈ session_items (overlay w) →
         ∃ it, heap w !! r = Some it ∧ captured it.
Proof.
  induction 1 as [h mw|w e ev w' _ IH Hstep].
  - split; [apply NoDup_nil_2|]. intros r Hr. by apply elem_of_nil in Hr.
  - by apply (handle_session_live e ev w w').
Qed.

Lemma session_items_live_witness :
  ∃ w, run [(sample_env, MousePress LeftButton (mkQPoint 0 0));
            (sample_env, MousePress RightButton (mkQPoint 10 10));
            (sample_env, MouseMove (mkQPoint 30 40));
            (sample_env, MousePress LeftButton (mkQPoint 30 40))]
           (start_capture ∅ empty_main_window) = Some w
       ∧ session_items (overlay w) = [1%positive; 2%positive]
       ∧ NoDup (session_items (overlay w))
       ∧ ∀ r, r ∈ session_items (overlay w) →
              ∃ it, heap w !! r = Some it ∧ captured it.
Proof.
  eexists. split; [vm_compute; reflexivity|]. split; [reflexivity|].
  apply session_items_live.
  apply (reachable_run
           [(sample_env, MousePress LeftButton (mkQPoint 0 0));
            (sample_env, MousePress RightButton (mkQPoint 10 10));
            (sample_env, MouseMove (mkQPoint 30 40));
            (sample_env, MousePress LeftButton (mkQPoint 30 40))]
           (start_capture ∅ empty_main_window));
    [apply reachable_start|vm_compute; reflexivity].
Defined.

(** ** Handlers that return *)

Lemma reachable_selection_ok w : reachable w → selection_ok (overlay w).
Proof.
  induction 1 as [h mw|w e ev w' _ IH Hstep].
  - by apply selection_ok_unselected.
  - destruct ev; simpl in Hstep.
    + by simplify_eq.
    + by eapply mousePressEvent_selection_ok.
    + by eapply keyPressEvent_selection_ok.
    + simplify_eq. by destruct key.
    + by simplify_eq.
Qed.

Lemma py_index_valid {A} (l : list A) i :
  0 ≤ i < Z.of_nat (length l) →
  ∃ x, py_getitem l i = Some x ∧ l !! Z.to_nat i = Some x
       ∧ py_delitem l i = Some (delete (Z.to_nat i) l).
Proof.
  intros Hi. unfold py_getitem, py_delitem, py_index.
  destruct (Z.leb_spec 0 i); [|lia].
  destruct (Z.ltb_spec i (Z.of_nat (length l))); [|lia]. simpl.
  destruct (lookup_lt_is_Some_2 l (Z.to_nat i)) as [x Hx]; [lia|].
  exists x. by rewrite Hx.
Qed.

Lemma nearest_index_total pos items : is_Some (nearest_index pos items).
Proof.
  destruct (item_distances_total pos items) as [ds Hds].
  destruct (select_loop_spec pos items ds Hds 0 limit (-1)) as (r & Hr & _).
  by exists r.
Qed.

(** X2. In a capture run no mouse or key handler raises, a click that ends
    a ruler apart (it converts the measured length to an integer): the
    selection is always an index of the session list and the distances
    of [select_nearest_item] never divide by zero. *)
Theorem handlers_return (e : Env) (ev : Event) (w : World) :
  reachable w →
  ev ≠ Paint →
  (∀ button pos, ev = MousePress button pos → capture_mode (overlay w) ≠ ruler) →
  ∃ w', handle e ev w = Some w'.
Proof.
  intros Hw Hpaint Hev.
  pose proof (reachable_selection_ok w Hw) as Hsel.
  pose proof (reachable_session_live w Hw) as [_ Hlive].
  destruct ev as [pos|button pos|key|key|]; simpl; eauto.
  - specialize (Hev button pos eq_refl). unfold mousePressEvent.
    destruct (capture_mode (overlay w)) eqn:Hmode; [|done|].
    + destruct button; eauto.
      destruct (add_coordinate_result (heap w) (main_window w)
                  (px (cursor_pos (overlay w))) (py (cursor_pos (overlay w)))
                  (now_iso e)) as (ti & _ & ->). simpl. eauto.
    + destruct button; eauto. unfold select_nearest_item.
      destruct (mapM_is_Some_2 (λ r, heap w !! r) (session_items (overlay w)))
        as [items ->].
      { apply Forall_forall. intros r Hr. destruct (Hlive r Hr) as (it & Hit & _).
        simpl. by rewrite Hit. }
      simpl. destruct (nearest_index_total pos items) as [k ->]. simpl. eauto.
  - unfold keyPressEvent.
    set (w1 := match key with Key_Shift => _ | _ => _ end).
    case_decide as Hedit; [|eauto].
    destruct key; eauto.
    + subst w1. destruct Hedit as [_ Hne]. destruct Hsel as [[?|Hrange] _]; [done|].
      unfold delete_current_selection.
      destruct (py_index_valid _ _ Hrange) as (x & -> & _ & ->). simpl.
      destruct (remove_item_by_reference _ _ _) as [[[] h] mw]; simpl; eauto.
    + subst w1. destruct Hedit as [_ Hne]. destruct Hsel as [[?|Hrange] _]; [done|].
      unfold rename_current_selection.
      destruct (py_index_valid _ _ Hrange) as (x & -> & _ & _). simpl.
      destruct (prompt e) as [text ok].
      destruct (ok && negb (text =? "")%string); eauto.
      destruct (rename_item_by_reference _ _ _ _) as [[? h] mw]. eauto.
Qed.

Lemma handlers_return_witness :
  ∃ w, run [(sample_env, MouseMove (mkQPoint 5 7));
            (sample_env, MousePress LeftButton (mkQPoint 5 7));
            (sample_env, KeyPress Key_E);
            (sample_env, MousePress LeftButton (mkQPoint 5 7))]
           (start_capture ∅ empty_main_window) = Some w
       ∧ selected_item_index (overlay w) = 0
       ∧ ∃ w', handle sample_env (KeyPress Key_Delete) w = Some w'.
Proof.
  eexists. split; [vm_compute; reflexivity|]. split; [reflexivity|].
  apply handlers_return; [|done|done].
  apply (reachable_run
           [(sample_env, MouseMove (mkQPoint 5 7));
            (sample_env, MousePress LeftButton (mkQPoint 5 7));
            (sample_env, KeyPress Key_E);
            (sample_env, MousePress LeftButton (mkQPoint 5 7))]
           (start_capture ∅ empty_main_window));
    [apply reachable_start|vm_compute; reflexivity].
Defined.

(** ** Cancelling a ruler *)

(** X3. A ruler started with a right click and cancelled with Escape or Q
    leaves no trace but its two notifications: the overlay is back in
    the normal mode without an anchor, and the session list, the
    selection, the objects and the main window are as before. *)
Theorem ruler_cancelled (e1 e2 : Env) (pos : QPoint) (key : Key) (w : World) :
  capture_mode (overlay w) = normal →
  key = Key_Escape ∨ key = Key_Q →
  ∃ w', run [(e1, MousePress RightButton pos); (e2, KeyPress key)] w = Some w'
    ∧ capture_mode (overlay w') = normal
    ∧ ruler_start (overlay w') = None
    ∧ session_items (overlay w') = session_items (overlay w)
    ∧ selected_item_index (overlay w') = selected_item_index (overlay w)
    ∧ ov_visible (overlay w') = ov_visible (overlay w)
    ∧ heap w' = heap w
    ∧ main_window w' = main_window w
    ∧ notifications (overlay w') =
        notifications (overlay w)
          ++ [("Ruler Mode: Click to end", Py.add (now e1) (Py.PInt 2));
              ("Ruler Cancelled", Py.add (now e2) (Py.PInt 2))].
Proof.
  intros Hmode Hkey. simpl. unfold mousePressEvent. rewrite Hmode. simpl.
  unfold keyPressEvent. destruct Hkey as [-> | ->]; simpl;
    eexists; (split; [reflexivity|]); simpl; rewrite <- app_assoc; done.
Qed.

Lemma ruler_cancelled_witness :
  ∃ w', run [(sample_env, MousePress RightButton (mkQPoint 10 10));
             (sample_env, KeyPress Key_Escape)]
            (start_capture ∅ empty_main_window) = Some w'
    ∧ capture_mode (overlay w') = normal
    ∧ session_items (overlay w') = []
    ∧ heap w' = ∅.
Proof.
  destruct (ruler_cancelled sample_env sample_env (mkQPoint 10 10) Key_Escape
              (start_capture ∅ empty_main_window))
    as (w' & Hrun & Hm & _ & Hs & _ & _ & Hh & _); [reflexivity|by left|].
  exists w'. split_and!; [exact Hrun|exact Hm|exact Hs|exact Hh].
Defined.

(** ** The corner of the coordinate label *)

Lemma finish_ruler_corner e pos w w' :
  finish_ruler e pos w = Some w' → corner_pos (overlay w') = corner_pos (overlay w).
Proof.
  intros H. unfold finish_ruler in H.
  destruct (ruler_start (overlay w)) as [start|]; [|by simplify_eq].
  destruct (isNull start); [by simplify_eq|].
  destruct (euclid _ _ _ _) as [dist|]; [simpl in H|done].
  destruct (add_measurement _ _ _ _ _ _ _ _ _) as [[[item h] mw]|]; [simpl in H|done].
  destruct (Py.to_int dist); [simpl in H|done]. by simplify_eq.
Qed.

Lemma handle_corner_ok e ev w w' :
  corner_ok (overlay w) → handle e ev w = Some w' → corner_ok (overlay w').
Proof.
  unfold corner_ok. intros Hc H. destruct ev as [pos|button pos|key|key|]; simpl in H.
  - by simplify_eq.
  - unfold mousePressEvent in H.
    destruct (capture_mode (overlay w)), button; try (by simplify_eq);
      try (apply finish_ruler_corner in H; lia).
    + destruct (add_coordinate _ _ _ _ _) as [[[item h] mw]|]; [simpl in H|done].
      by simplify_eq.
    + unfold select_nearest_item in H.
      destruct (mapM _ _); [simpl in H|done].
      destruct (nearest_index _ _); [simpl in H|done]. by simplify_eq.
  - unfold keyPressEvent in H.
    set (w1 := match key with Key_Shift => _ | _ => _ end) in H.
    assert (Hw1 : 0 ≤ corner_pos (overlay w1) ≤ 3).
    { subst w1. destruct key; try done;
        try (destruct (capture_mode (overlay w)); done).
      simpl. pose proof (Z.mod_pos_bound (corner_pos (overlay w) + 1) 4). lia. }
    clearbody w1. case_decide; [|by simplify_eq].
    destruct key; try by simplify_eq.
    + unfold delete_current_selection in H.
      destruct (py_getitem _ _); [simpl in H|done].
      destruct (remove_item_by_reference _ _ _) as [[[] h] mw].
      * destruct (py_delitem _ _); [simpl in H|done]. by simplify_eq.
      * by simplify_eq.
    + unfold rename_current_selection in H.
      destruct (py_getitem _ _); [simpl in H|done].
      destruct (prompt e) as [text ok].
      destruct (ok && negb (text =? "")%string).
      * destruct (rename_item_by_reference _ _ _ _) as [[? h] mw]. by simplify_eq.
      * by simplify_eq.
  - simplify_eq. by destruct key.
  - by simplify_eq.
Qed.

Lemma reachable_corner_ok w : reachable w → corner_ok (overlay w).
Proof.
  induction 1 as [h mw|w e ev w' _ IH Hstep]; [by compute|].
  by eapply handle_corner_ok.
Qed.

Lemma set_corner_pos_same o : set_corner_pos (corner_pos o) o = o.
Proof. by destruct o. Qed.

(** X4. In a capture run the corner of the coordinate label is one of 0,
    1, 2 and 3, and four presses of Space bring back the very state
    they started from. *)
Theorem space_cycles_corner (e1 e2 e3 e4 : Env) (w : World) :
  reachable w →
  0 ≤ corner_pos (overlay w) ≤ 3
  ∧ run [(e1, KeyPress Key_Space); (e2, KeyPress Key_Space);
         (e3, KeyPress Key_Space); (e4, KeyPress Key_Space)] w = Some w.
Proof.
  intros Hw. pose proof (reachable_corner_ok w Hw) as Hc. split; [done|].
  unfold corner_ok in Hc.
  assert (Hstep : ∀ e o h mw,
    keyPressEvent e Key_Space (mkWorld h mw o)
      = Some (mkWorld h mw (set_corner_pos ((corner_pos o + 1) `mod` 4) o))).
  { intros e o h mw. unfold keyPressEvent. simpl. by case_decide. }
  destruct w as [h mw o]. simpl in Hc. simpl.
  rewrite Hstep. simpl. rewrite Hstep. simpl. rewrite Hstep. simpl. rewrite Hstep.
  simpl. do 2 f_equal. destruct o as [cur c cm rs sh hp ns ss si kg vis]. simpl in *.
  unfold set_corner_pos. simpl. f_equal.
  assert (c = 0 ∨ c = 1 ∨ c = 2 ∨ c = 3) as [->|[->|[->| ->]]] by lia; reflexivity.
Qed.

Lemma space_cycles_corner_witness :
  run [(sample_env, KeyPress Key_Space); (sample_env, KeyPress Key_Space);
       (sample_env, KeyPress Key_Space); (sample_env, KeyPress Key_Space)]
      (start_capture ∅ empty_main_window)
    = Some (start_capture ∅ empty_main_window).
Proof.
  apply (space_cycles_corner sample_env sample_env sample_env sample_env
           (start_capture ∅ empty_main_window)).
  apply reachable_start.
Defined.

(** ** Capturing a point *)

Lemma serialize_tree_app cs c : ∀ h,
  (_serialize_tree h (cs ++ [c])).1
    = (serialize_item (_serialize_tree h cs).1 c).1.
Proof.
  induction cs as [|c0 cs IH]; intros h; simpl.
  - by destruct (serialize_item h c).
  - destruct (serialize_item h c0) as [h' r]. specialize (IH h').
    destruct (_serialize_tree h' (cs ++ [c])) as [h2 rs2].
    destruct (_serialize_tree h' cs) as [h3 rs3]. simpl in *. done.
Qed.

(** The object of a childless item appended last to the tree: the save
    leaves it its data and gives it the item's cleaned text as name. *)
Lemma save_new_leaf h mw r it text0 text1 :
  captured it →
  let h2 := (save_data (<[r := it]> h)
               (set_tree (tree mw ++ [TreeNode text0 text1 r false []]) mw)).1 in
  ∃ it', h2 !! r = Some it' ∧ same_data it it' ∧ captured it'
         ∧ item_name it' = clean_name text0.
Proof.
  intros Hcap h2. subst h2. unfold save_data. cbn [tree set_tree].
  set (node := TreeNode text0 text1 r false []).
  destruct (_serialize_tree (<[r:=it]> h) (tree mw ++ [node])) as [h2 rs2] eqn:E2.
  cbn [fst].
  assert (Hh2 : h2 = (serialize_item (_serialize_tree (<[r:=it]> h) (tree mw)).1 node).1).
  { by rewrite <- serialize_tree_app, E2. }
  pose proof (serialize_tree_same_objects (tree mw) (<[r := it]> h)) as Hsame.
  destruct (_serialize_tree (<[r:=it]> h) (tree mw)) as [h1 rs1]. cbn [fst] in *.
  specialize (Hsame r). rewrite lookup_insert_eq in Hsame.
  subst h2 node. rewrite serialize_item_unfold.
  destruct (h1 !! r) as [it1|] eqn:E1; [|done].
  destruct it1 as [c1|m1|f1]; [| |by destruct it]; cbn [fst];
    rewrite lookup_alter_eq, E1; cbn; eexists; (split; [reflexivity|]);
    destruct it; done.
Qed.

Lemma clean_name_point s :
  clean_name (prefix_coordinate +:+ "Point (" +:+ s) = "Point (" +:+ s.
Proof. reflexivity. Qed.

Lemma clean_name_measurement s :
  clean_name (prefix_measurement +:+ "Measurement " +:+ s) = "Measurement " +:+ s.
Proof. reflexivity. Qed.

(** X5. A left click in the normal mode stores a point at the position of
    the last mouse move, wherever the click itself is. *)
Theorem capture_stores_cursor_position (e : Env) (pos : QPoint) (w : World) :
  capture_mode (overlay w) = normal →
  ∃ w' r c,
    mousePressEvent e LeftButton pos w = Some w'
    ∧ heap w !! r = None
    ∧ heap w' !! r = Some (ICoordinate c)
    ∧ ci_x c = px (cursor_pos (overlay w))
    ∧ ci_y c = py (cursor_pos (overlay w))
    ∧ ci_name c = "Point (" +:+ pretty (ci_x c) +:+ ", " +:+ pretty (ci_y c) +:+ ")"
    ∧ ci_timestamp c = now_iso e
    ∧ session_items (overlay w') = session_items (overlay w) ++ [r]
    ∧ map ti_data (tree (main_window w')) = map ti_data (tree (main_window w)) ++ [r]
    ∧ capture_mode (overlay w') = normal
    ∧ notifications (overlay w') =
        notifications (overlay w)
          ++ [("Captured: " +:+ pretty (ci_x c) +:+ ", " +:+ pretty (ci_y c),
               Py.add (now e) (Py.PInt 2))].
Proof.
  intros Hmode. unfold mousePressEvent. rewrite Hmode.
  set (x := px (cursor_pos (overlay w))). set (y := py (cursor_pos (overlay w))).
  destruct (add_coordinate_result (heap w) (main_window w) x y (now_iso e))
    as (ti & Hti & ->).
  simpl in Hti. injection Hti as <-. cbn [mbind option_bind].
  set (it := ICoordinate (CoordinateItem_init x y (Some "") None (now_iso e))).
  set (node := TreeNode _ _ _ _ _).
  destruct (save_new_leaf (heap w) (main_window w) (fresh (dom (heap w))) it
              (ti_text0 node) (ti_text1 node) I) as (it' & Hit' & Hsame & _ & Hname).
  pose proof (save_data_same_objects (<[fresh (dom (heap w)) := it]> (heap w))
                (set_tree (tree (main_window w) ++ [node]) (main_window w)))
    as (_ & Htree & _).
  change (TreeNode (ti_text0 node) (ti_text1 node) (fresh (dom (heap w))) false [])
    with node in Hit'.
  destruct it' as [c| |]; try done. simpl in Hsame. destruct Hsame as (Hx & Hy & Ht).
  exists (mkWorld
            (save_data (<[fresh (dom (heap w)) := it]> (heap w))
               (set_tree (tree (main_window w) ++ [node]) (main_window w))).1
            (save_data (<[fresh (dom (heap w)) := it]> (heap w))
               (set_tree (tree (main_window w) ++ [node]) (main_window w))).2
            (add_notification e ("Captured: " +:+ pretty x +:+ ", " +:+ pretty y)
               (set_session_items
                  (session_items (overlay w) ++ [fresh (dom (heap w))]) (overlay w)))),
    (fresh (dom (heap w))), c.
  split; [by destruct (save_data _ _)|].
  split; [apply not_elem_of_dom, is_fresh|].
  cbn [heap main_window overlay]. rewrite Htree.
  split_and!; try done.
  - simpl in Hname. rewrite Hname, <- Hx, <- Hy. apply clean_name_point.
  - cbn [tree set_tree]. by rewrite map_app.
  - by rewrite <- Hx, <- Hy.
Qed.

Lemma capture_stores_cursor_position_witness :
  ∃ w' r c,
    mousePressEvent sample_env LeftButton (mkQPoint 9 9)
      (mouseMoveEvent (mkQPoint 40 30) (start_capture ∅ empty_main_window)) = Some w'
    ∧ heap w' !! r = Some (ICoordinate c)
    ∧ ci_x c = 40 ∧ ci_y c = 30
    ∧ session_items (overlay w') = [r].
Proof.
  destruct (capture_stores_cursor_position sample_env (mkQPoint 9 9)
              (mouseMoveEvent (mkQPoint 40 30) (start_capture ∅ empty_main_window)))
    as (w' & r & c & H1 & _ & H2 & Hx & Hy & _ & _ & Hs & _); [reflexivity|].
  exists w', r, c. split_and!; [exact H1|exact H2|exact Hx|exact Hy|exact Hs].
Defined.

(** ** The ruler preview and the finished ruler *)

Lemma add_measurement_success h mw x1 y1 x2 y2 dist aligned now n :
  Py.to_int dist = Some n →
  let name := "Measurement " +:+ pretty n +:+ "px" in
  let m := mkMeasurementItem x1 y1 x2 y2 dist name now aligned in
  let r := fresh (dom h) in
  let detail :=
    pretty n +:+ "px (" +:+ pretty x1 +:+ "," +:+ pretty y1
      +:+ ")→(" +:+ pretty x2 +:+ "," +:+ pretty y2 +:+ ")" in
  let node := TreeNode (prefix_measurement +:+ name)
                (if aligned then detail +:+ " [Aligned]" else detail) r false [] in
  add_measurement h mw x1 y1 x2 y2 dist aligned now =
    Some (r,
          (save_data (<[r := IMeasurement m]> h) (set_tree (tree mw ++ [node]) mw)).1,
          (save_data (<[r := IMeasurement m]> h) (set_tree (tree mw ++ [node]) mw)).2).
Proof.
  intros Hn name m r detail node.
  unfold add_measurement, MeasurementItem_init. rewrite Hn. simpl.
  unfold add_to_tree_root, create_tree_item. simpl. rewrite Hn. simpl.
  fold name m r detail node. by destruct (save_data _ _).
Qed.

(** The state after a ruler is finished, given its length and the
    integer shown for it. *)
Lemma finish_ruler_result e pos w start dist n :
  ruler_start (overlay w) = Some start →
  isNull start = false →
  let end_ := snap_axis start pos (shift_pressed (overlay w)) in
  euclid (Py.PInt (px end_)) (Py.PInt (py end_))
         (Py.PInt (px start)) (Py.PInt (py start)) = Some dist →
  Py.to_int dist = Some n →
  ∃ w' r m,
    finish_ruler e pos w = Some w'
    ∧ heap w !! r = None
    ∧ heap w' !! r = Some (IMeasurement m)
    ∧ (mi_x1 m, mi_y1 m) = (px start, py start)
    ∧ (mi_x2 m, mi_y2 m) = (px end_, py end_)
    ∧ mi_distance m = dist
    ∧ mi_auto_aligned m = negb (QPoint_eqb end_ pos)
    ∧ mi_timestamp m = now_iso e
    ∧ mi_name m = "Measurement " +:+ pretty n +:+ "px"
    ∧ session_items (overlay w') = session_items (overlay w) ++ [r]
    ∧ map ti_data (tree (main_window w')) = map ti_data (tree (main_window w)) ++ [r]
    ∧ capture_mode (overlay w') = normal
    ∧ ruler_start (overlay w') = None
    ∧ notifications (overlay w') =
        notifications (overlay w)
          ++ [("Measurement: " +:+ pretty n +:+ "px", Py.add (now e) (Py.PInt 2))].
Proof.
  intros Hstart Hnull end_ Hdist Hn.
  unfold finish_ruler. rewrite Hstart, Hnull. fold end_. rewrite Hdist.
  cbn [mbind option_bind].
  rewrite (add_measurement_success (heap w) (main_window w) (px start) (py start)
             (px end_) (py end_) dist (negb (QPoint_eqb end_ pos)) (now_iso e) n Hn).
  cbn [mbind option_bind]. rewrite Hn. cbn [mbind option_bind].
  set (m0 := mkMeasurementItem _ _ _ _ _ _ _ _).
  set (node := TreeNode _ _ _ _ _).
  set (r := fresh (dom (heap w))).
  destruct (save_new_leaf (heap w) (main_window w) r (IMeasurement m0)
              (ti_text0 node) (ti_text1 node) I) as (it' & Hit' & Hsame & _ & Hname).
  change (TreeNode (ti_text0 node) (ti_text1 node) r false []) with node in Hit'.
  pose proof (save_data_same_objects (<[r := IMeasurement m0]> (heap w))
                (set_tree (tree (main_window w) ++ [node]) (main_window w)))
    as (_ & Htree & _).
  destruct (save_data _ _) as [h2 mw2] eqn:Es. cbn [fst snd] in *.
  destruct it' as [|m|]; try done. simpl in Hsame.
  destruct Hsame as (H1 & H2 & H3 & H4 & H5 & H6 & H7).
  eexists _, r, m. split; [reflexivity|].
  split; [apply not_elem_of_dom, is_fresh|].
  cbn [heap main_window overlay]. rewrite Htree.
  subst m0. cbn in H1, H2, H3, H4, H5, H6, H7.
  split_and!; try done; try congruence.
  cbn [tree set_tree]. by rewrite map_app.
Qed.

(** X6. The preview is what the click makes: when a frame shows the ruler
    from the anchor to [end_] with the text [text], a click at the
    cursor position stores a measurement from the anchor to [end_]
    named "Measurement" followed by that text. *)
Theorem ruler_preview_agrees (e : Env) (button : MouseButton) (w : World)
    (start end_ : QPoint) (text : string) :
  capture_mode (overlay w) = ruler →
  button = LeftButton ∨ button = RightButton →
  isNull start = false →
  draw_ruler (overlay w) = Some (start, end_, text) →
  ∃ w' r m,
    mousePressEvent e button (cursor_pos (overlay w)) w = Some w'
    ∧ heap w !! r = None
    ∧ heap w' !! r = Some (IMeasurement m)
    ∧ (mi_x1 m, mi_y1 m) = (px start, py start)
    ∧ (mi_x2 m, mi_y2 m) = (px end_, py end_)
    ∧ mi_name m = "Measurement " +:+ text
    ∧ mi_auto_aligned m = negb (QPoint_eqb end_ (cursor_pos (overlay w)))
    ∧ session_items (overlay w') = session_items (overlay w) ++ [r]
    ∧ capture_mode (overlay w') = normal
    ∧ ruler_start (overlay w') = None
    ∧ notifications (overlay w') =
        notifications (overlay w)
          ++ [("Measurement: " +:+ text, Py.add (now e) (Py.PInt 2))].
Proof.
  intros Hmode Hbutton Hnull Hdraw. unfold draw_ruler in Hdraw.
  destruct (ruler_start (overlay w)) as [start'|] eqn:Hstart; [|done].
  cbn [mbind option_bind] in Hdraw.
  destruct (euclid _ _ _ _) as [dist|] eqn:Hdist; [|done].
  cbn [mbind option_bind] in Hdraw.
  destruct (Py.to_int dist) as [n|] eqn:Hn; [|done].
  cbn [mbind option_bind] in Hdraw. simplify_eq.
  destruct (finish_ruler_result e (cursor_pos (overlay w)) w start dist n
              Hstart Hnull Hdist Hn)
    as (w' & r & m & Hf & H0 & H1 & H2 & H3 & _ & H5 & _ & H7 & H8 & _ & H10 & H11 & H12).
  exists w', r, m.
  split; [|by split_and!].
  unfold mousePressEvent. rewrite Hmode. by destruct Hbutton as [-> | ->].
Qed.

Lemma ruler_preview_agrees_witness :
  draw_ruler (overlay sample_ruler_world)
    = Some (mkQPoint 100 100, mkQPoint 250 100, "150px")
  ∧ ∃ w' r m,
      mousePressEvent sample_env LeftButton (mkQPoint 250 103) sample_ruler_world
        = Some w'
      ∧ heap w' !! r = Some (IMeasurement m)
      ∧ (mi_x2 m, mi_y2 m) = (250, 100)
      ∧ mi_name m = "Measurement 150px".
Proof.
  split; [vm_compute; reflexivity|].
  destruct (ruler_preview_agrees sample_env LeftButton sample_ruler_world
              (mkQPoint 100 100) (mkQPoint 250 100) "150px")
    as (w' & r & m & H1 & _ & H2 & _ & H3 & H4 & _);
    [reflexivity|by left|reflexivity|vm_compute; reflexivity|].
  exists w', r, m. split_and!; [exact H1|exact H2|exact H3|exact H4].
Defined.

Lemma euclid_same x y :
  euclid (Py.PInt x) (Py.PInt y) (Py.PInt x) (Py.PInt y)
    = Some (Py.PFloat (S754_zero false)).
Proof. unfold euclid. simpl. by rewrite !Z.sub_diag. Qed.

Lemma snap_axis_same start freeform : snap_axis start start freeform = start.
Proof.
  unfold snap_axis. destruct freeform; [done|]. rewrite !Z.sub_diag. simpl.
  by destruct start.
Qed.

(** X7. A ruler ended on its own anchor is a measurement of length 0.0,
    named "Measurement 0px" and not marked as aligned. *)
Theorem zero_length_ruler (e : Env) (button : MouseButton) (w : World) (start : QPoint) :
  capture_mode (overlay w) = ruler →
  button = LeftButton ∨ button = RightButton →
  ruler_start (overlay w) = Some start →
  isNull start = false →
  ∃ w' r m,
    mousePressEvent e button start w = Some w'
    ∧ heap w' !! r = Some (IMeasurement m)
    ∧ (mi_x1 m, mi_y1 m) = (px start, py start)
    ∧ (mi_x2 m, mi_y2 m) = (px start, py start)
    ∧ mi_distance m = Py.PFloat (S754_zero false)
    ∧ mi_auto_aligned m = false
    ∧ mi_name m = "Measurement 0px"
    ∧ session_items (overlay w') = session_items (overlay w) ++ [r]
    ∧ capture_mode (overlay w') = normal.
Proof.
  intros Hmode Hbutton Hstart Hnull.
  destruct (finish_ruler_result e start w start (Py.PFloat (S754_zero false)) 0
              Hstart Hnull)
    as (w' & r & m & Hf & _ & H1 & H2 & H3 & H4 & H5 & _ & H7 & H8 & _ & H10 & _).
  { rewrite snap_axis_same. apply euclid_same. }
  { reflexivity. }
  rewrite snap_axis_same in *.
  exists w', r, m. split_and!; try done.
  - unfold mousePressEvent. rewrite Hmode. by destruct Hbutton as [-> | ->].
  - rewrite H5. unfold QPoint_eqb. by rewrite !Z.eqb_refl.
Qed.

Lemma zero_length_ruler_witness :
  ∃ w' r m,
    mousePressEvent sample_env RightButton (mkQPoint 100 100) sample_ruler_world
      = Some w'
    ∧ heap w' !! r = Some (IMeasurement m)
    ∧ mi_distance m = Py.PFloat (S754_zero false)
    ∧ mi_name m = "Measurement 0px".
Proof.
  destruct (zero_length_ruler sample_env RightButton sample_ruler_world
              (mkQPoint 100 100))
    as (w' & r & m & H1 & H2 & _ & _ & H3 & _ & H4 & _);
    [reflexivity|by right|reflexivity|reflexivity|].
  exists w', r, m. split_and!; [exact H1|exact H2|exact H3|exact H4].
Defined.

(** ** The axis snap *)

Local Ltac ltb_cases :=
  repeat match goal with
         | |- context [?a <? ?b] => destruct (Z.ltb_spec a b)
         | H : context [?a <? ?b] |- _ => destruct (Z.ltb_spec a b)
         end.

(** X8. Snapping a snapped end point changes nothing, and a snapped end
    point is the raw one or lies on the horizontal or the vertical
    through the anchor. *)
Theorem snap_axis_idempotent (start end_ : QPoint) (freeform : bool) :
  snap_axis start (snap_axis start end_ freeform) freeform
    = snap_axis start end_ freeform
  ∧ (snap_axis start end_ freeform = end_
     ∨ py (snap_axis start end_ freeform) = py start
     ∨ px (snap_axis start end_ freeform) = px start).
Proof.
  unfold snap_axis. destruct freeform; [by split; [|left]|].
  split.
  - destruct (Z.ltb_spec (Z.abs (py end_ - py start) * 10) (Z.abs (px end_ - px start)));
      [|destruct (Z.ltb_spec (Z.abs (px end_ - px start) * 10)
                   (Z.abs (py end_ - py start)))];
      simpl; ltb_cases; try done; f_equal; lia.
  - ltb_cases; simpl; auto.
Qed.

(** X9. The flag [auto_aligned] that [finish_ruler] passes on, [end !=
    end_pos]: set exactly when the snap moved the end point, so never
    with shift held and never for a ruler that is already horizontal
    or vertical. *)
Theorem auto_aligned_iff (start end_ : QPoint) (freeform : bool) :
  let dx := Z.abs (px end_ - px start) in
  let dy := Z.abs (py end_ - py start) in
  negb (QPoint_eqb (snap_axis start end_ freeform) end_) = true
  ↔ freeform = false
    ∧ ((dx > 10 * dy ∧ dy ≠ 0) ∨ (dy > 10 * dx ∧ dx ≠ 0)).
Proof.
  intros dx dy. unfold snap_axis. fold dx dy. unfold QPoint_eqb.
  destruct freeform.
  - rewrite !Z.eqb_refl. simpl. split; [done|by intros [? _]].
  - destruct (Z.ltb_spec (dy * 10) dx); [|destruct (Z.ltb_spec (dx * 10) dy)];
      simpl; rewrite ?Z.eqb_refl; simpl.
    + destruct (Z.eqb_spec (py start) (py end_)); simpl; split; try done;
        try (intros [_ [[_ ?]|[? ?]]]; subst dx dy; lia).
      intros _. split; [done|]. left. subst dx dy. lia.
    + destruct (Z.eqb_spec (px start) (px end_)); simpl; split; try done;
        try (intros [_ [[? ?]|[_ ?]]]; subst dx dy; lia).
      intros _. split; [done|]. right. subst dx dy. lia.
    + split; [done|]. intros [_ [[? ?]|[? ?]]]; lia.
Qed.

(** ** A click on a captured point *)

Local Ltac zcompare :=
  match goal with
  | |- context [(?a ?= ?b)%Z] => destruct (Z.compare_spec a b)
  end.

Lemma signed_false_value f :
  signed false f → Py.lt (Py.PFloat f) (Py.PInt 0) = false.
Proof.
  destruct 1 as [| |m e]; unfold Py.lt; simpl; try done.
  unfold Py.dyadic. destruct e as [|q|q]; unfold Qcompare; simpl Qnum; simpl Qden.
  - by zcompare; try lia.
  - assert (Hq : 0 < 2 ^ Zpos q) by (apply Z.pow_pos_nonneg; lia).
    change (Z.pow_pos 2 q) with (2 ^ Zpos q). by zcompare; try nia.
  - by zcompare; try lia.
Qed.

Lemma sqrt_not_below_zero a d :
  Py.sqrt a = Some d → Py.lt d (Py.PInt 0) = false.
Proof.
  unfold Py.sqrt. destruct (Py.is_negative (Py.to_float a)) eqn:E; [done|].
  intros [= <-]. destruct (Py.to_float a) as [s|[]| |[] m e]; try done.
  apply signed_false_value. simpl. unfold SFsqrt_core_binary.
  set (e' := Z.min _ _).
  set (m' := match e - 2 * e' with Z0 => _ | Zpos _ => _ | Zneg _ => _ end).
  assert (Hm' : 0 ≤ m').
  { subst m'. destruct (e - 2 * e'); try lia. apply Z.shiftl_nonneg. lia. }
  pose proof (Z.sqrtrem_spec m' Hm') as Hs.
  destruct (Z.sqrtrem m') as [q r]. apply binary_round_aux_signed. lia.
Qed.

Lemma item_distance_not_below_zero pos it d :
  item_distance pos it = Some d → Py.lt d (Py.PInt 0) = false.
Proof.
  destruct it as [c|m|f]; simpl.
  - apply sqrt_not_below_zero.
  - unfold segment_distance. case_match; [apply sqrt_not_below_zero|].
    destruct (projection_parameter _ _ _ _ _); [simpl|done]. apply sqrt_not_below_zero.
  - by intros [= <-].
Qed.

(** Of two numbers that are not NaN, one is at most the other. *)
Lemma le_false_lt a b :
  Py.le a b = false → Py.le a a = true → Py.le b b = true → Py.lt b a = true.
Proof.
  unfold Py.le, Py.lt.
  destruct (Py.value a) as [| |p|], (Py.value b) as [| |q|]; simpl; try done.
  unfold Qcompare. intros H _ _. rewrite Z.compare_antisym.
  by destruct (Qnum p * QDen q ?= Qnum q * QDen p).
Qed.

Lemma lt_false_le a b :
  Py.lt a b = false → Py.le a a = true → Py.le b b = true → Py.le b a = true.
Proof.
  unfold Py.le, Py.lt.
  destruct (Py.value a) as [| |p|], (Py.value b) as [| |q|]; simpl; try done.
  unfold Qcompare. intros H _ _. rewrite Z.compare_antisym.
  by destruct (Qnum p * QDen q ?= Qnum q * QDen p).
Qed.

Lemma lt_le_refl a b : Py.lt a b = true → Py.le a a = true.
Proof.
  unfold Py.le, Py.lt.
  destruct (Py.value a) as [| |p|], (Py.value b) as [| |q|]; simpl; try done;
    intros _; unfold Qcompare; by rewrite Z.compare_refl.
Qed.

(** X10. A click exactly on a captured point always selects: the item taken
    is at distance zero from the click and is that point or an item
    before it in the list. *)
Theorem click_on_point_selects (pos : QPoint) (items : list Item) (i : nat)
    (c : CoordinateItem) :
  items !! i = Some (ICoordinate c) →
  (ci_x c, ci_y c) = (px pos, py pos) →
  ∃ k it d,
    nearest_index pos items = Some (Z.of_nat k)
    ∧ (k ≤ i)%nat
    ∧ items !! k = Some it
    ∧ item_distance pos it = Some d
    ∧ Py.le d (Py.PInt 0) = true.
Proof.
  intros Hi [= Hx Hy].
  destruct (item_distances_total pos items) as [ds Hds].
  destruct (select_loop_spec pos items ds Hds 0 limit (-1)) as (r & Hr & Hcases).
  assert (Hdi : ds !! i = Some (Py.PFloat (S754_zero false))).
  { destruct (Forall2_lookup_l _ _ _ _ _ Hds Hi) as (d & Hd & Hdist).
    simpl in Hdist. rewrite Hx, Hy, euclid_same in Hdist. by simplify_eq. }
  destruct Hcases as [[_ Hall]|(k & d & -> & Hk & Hlt & Hmin & Hfirst)].
  { by specialize (Hall _ _ Hdi). }
  destruct (Forall2_lookup_r _ _ _ _ _ Hds Hk) as (it & Hit & Hdist).
  pose proof (item_distance_not_below_zero _ _ _ Hdist) as Hnn.
  pose proof (lt_le_refl _ _ Hlt) as Hdd.
  assert (Hle : Py.le d (Py.PFloat (S754_zero false)) = true).
  { apply lt_false_le; [by eapply Hmin|done|done]. }
  exists k, it, d. split_and!; try done.
  destruct (decide (k ≤ i)%nat) as [|Hgt]; [done|].
  specialize (Hfirst i _ ltac:(lia) Hdi).
  apply le_false_lt in Hfirst; [|done..].
  assert (Py.lt d (Py.PInt 0) = true); [|congruence].
  revert Hfirst. unfold Py.lt. by destruct (Py.value d).
Qed.

Lemma click_on_point_selects_witness :
  ∃ k it d,
    nearest_index (mkQPoint 40 30)
      [IMeasurement (mkMeasurementItem 0 0 8 8 (Py.PInt 11) "" "" false);
       ICoordinate (mkCoordinateItem 40 30 "" "")] = Some (Z.of_nat k)
    ∧ (k ≤ 1)%nat
    ∧ item_distance (mkQPoint 40 30) it = Some d
    ∧ Py.le d (Py.PInt 0) = true.
Proof.
  destruct (click_on_point_selects (mkQPoint 40 30)
              [IMeasurement (mkMeasurementItem 0 0 8 8 (Py.PInt 11) "" "" false);
               ICoordinate (mkCoordinateItem 40 30 "" "")] 1
              (mkCoordinateItem 40 30 "" ""))
    as (k & it & d & H1 & H2 & _ & H3 & H4); [reflexivity|reflexivity|].
  exists k, it, d. split_and!; [exact H1|exact H2|exact H3|exact H4].
Defined.

(** ** The search through the tree *)

Lemma item_nodes_unfold text0 text1 data expanded children :
  item_nodes (TreeNode text0 text1 data expanded children)
    = TreeNode text0 text1 data expanded children :: tree_nodes children.
Proof. reflexivity. Qed.

Lemma item_refs_unfold text0 text1 data expanded children :
  item_refs (TreeNode text0 text1 data expanded children) = data :: tree_refs children.
Proof. reflexivity. Qed.

Lemma item_refs_eq t : item_refs t = ti_data t :: tree_refs (ti_children t).
Proof. by destruct t. Qed.

Lemma item_nodes_eq t : item_nodes t = t :: tree_nodes (ti_children t).
Proof. by destruct t. Qed.

Lemma tree_refs_cons c cs : tree_refs (c :: cs) = item_refs c ++ tree_refs cs.
Proof. reflexivity. Qed.

Lemma tree_nodes_cons c cs : tree_nodes (c :: cs) = item_nodes c ++ tree_nodes cs.
Proof. reflexivity. Qed.

Lemma tree_refs_app cs1 cs2 : tree_refs (cs1 ++ cs2) = tree_refs cs1 ++ tree_refs cs2.
Proof. unfold tree_refs. by rewrite map_app, concat_app. Qed.

Lemma item_nodes_refs t : map ti_data (item_nodes t) = item_refs t.
Proof.
  induction t as [text0 text1 data expanded children IH] using TreeItem_forall_ind.
  rewrite item_nodes_unfold, item_refs_unfold. simpl. f_equal.
  induction IH as [|c cs Hc _ IHcs]; [done|].
  rewrite tree_nodes_cons, tree_refs_cons, map_app. by f_equal.
Qed.

Lemma tree_nodes_refs cs : map ti_data (tree_nodes cs) = tree_refs cs.
Proof.
  induction cs as [|c cs IH]; [done|].
  by rewrite tree_nodes_cons, tree_refs_cons, map_app, item_nodes_refs, IH.
Qed.

Lemma replace_below_unfold r k text0 text1 data expanded children :
  replace_below r k (TreeNode text0 text1 data expanded children)
    = cs ← replace_first r k children; Some (TreeNode text0 text1 data expanded cs).
Proof.
  simpl.
  match goal with
  | |- mbind _ (?f children) = _ =>
      assert (H : ∀ cs, f cs = replace_first r k cs)
  end.
  { induction cs as [|c cs IH]; simpl; [done|].
    case_decide; [done|]. destruct (replace_below r k c); [done|]. by rewrite IH. }
  by rewrite H.
Qed.

Lemma replace_first_of_items r k cs :
  Forall (replaced_below r k) cs → replaced r k cs (replace_first r k cs).
Proof.
  induction 1 as [|c cs [Hc Hdata] _ IHcs]; unfold replaced in *; simpl.
  { apply not_elem_of_nil. }
  case_decide as Hr.
  { exists [], c, (tree_nodes cs). split_and!; try done.
    by rewrite tree_refs_app, tree_nodes_refs. }
  destruct (replace_below r k c) as [c'|] eqn:Ec; simpl in Hc.
  - destruct Hc as (n1 & node & n2 & Hn & Hd & Hall & Hrefs).
    specialize (Hdata _ eq_refl).
    exists (c :: n1), node, (n2 ++ tree_nodes cs). split_and!; try done.
    + rewrite tree_nodes_cons, item_nodes_eq, Hn. simpl. by rewrite <- !app_assoc.
    + by constructor.
    + rewrite tree_refs_cons, item_refs_eq, Hrefs, Hdata, !map_app, tree_nodes_refs.
      simpl. by rewrite <- !app_assoc.
  - destruct (replace_first r k cs) as [cs'|]; simpl in *.
    + destruct IHcs as (n1 & node & n2 & Hn & Hd & Hall & Hrefs).
      exists (item_nodes c ++ n1), node, n2. split_and!; try done.
      * by rewrite tree_nodes_cons, Hn, <- app_assoc.
      * apply Forall_app. split; [|done].
        apply Forall_forall. intros n Hin Heq.
        apply (list_elem_of_fmap_2 ti_data) in Hin.
        rewrite Heq, item_nodes_refs, item_refs_eq in Hin.
        apply elem_of_cons in Hin as [?|?]; done.
      * by rewrite tree_refs_cons, Hrefs, map_app, item_nodes_refs, <- app_assoc.
    + rewrite tree_refs_cons, elem_of_app. intros [Hin|Hin]; [|done].
      rewrite item_refs_eq in Hin. apply elem_of_cons in Hin as [?|?]; done.
Qed.

Lemma replace_below_replaced r k t : replaced_below r k t.
Proof.
  induction t as [text0 text1 data expanded children IH] using TreeItem_forall_ind.
  pose proof (replace_first_of_items r k children IH) as Hcs.
  unfold replaced_below. rewrite replace_below_unfold. simpl ti_children.
  destruct (replace_first r k children); simpl; split; try done.
  by intros t' [= <-].
Qed.

Lemma replace_first_replaced r k cs : replaced r k cs (replace_first r k cs).
Proof.
  apply replace_first_of_items, Forall_forall. intros t _.
  apply replace_below_replaced.
Qed.

Lemma process_item_refs h t : item_refs (process_item h t) = item_refs t.
Proof.
  induction t as [text0 text1 data expanded children IH] using TreeItem_forall_ind.
  simpl process_item. destruct (h !! data) as [[]|]; try done.
  rewrite !item_refs_unfold. f_equal.
  induction IH as [|c cs Hc _ IHcs]; [done|].
  simpl map. by rewrite !tree_refs_cons, Hc, IHcs.
Qed.

Lemma recalculate_folder_counts_refs h mw :
  tree_refs (tree (recalculate_folder_counts h mw)) = tree_refs (tree mw).
Proof.
  unfold recalculate_folder_counts. simpl.
  induction (tree mw) as [|c cs IH]; [done|].
  simpl map. by rewrite !tree_refs_cons, process_item_refs, IH.
Qed.

(** X11. [remove_item_by_reference] answers [True] exactly when some tree
    item carries the object. On [False] nothing changes. On [True] the
    first such item, parent first, goes with the items below it; the
    other items stay in their order and no object loses its data. *)
Theorem remove_item_by_reference_removes (h : Heap) (mw : MainWindow) (r : ref) :
  let res := remove_item_by_reference h mw r in
  (res.1.1 = true ↔ r ∈ tree_refs (tree mw))
  ∧ (res.1.1 = false → res.1.2 = h ∧ res.2 = mw)
  ∧ (res.1.1 = true →
       ∃ n1 node n2,
         tree_nodes (tree mw) = n1 ++ item_nodes node ++ n2
         ∧ ti_data node = r
         ∧ Forall (λ n, ti_data n ≠ r) n1
         ∧ tree_refs (tree res.2) = map ti_data (n1 ++ n2)
         ∧ root_items res.2 = map ti_data (tree res.2)
         ∧ same_objects h res.1.2).
Proof.
  intros res. subst res. unfold remove_item_by_reference.
  pose proof (replace_first_replaced r (λ _, []) (tree mw)) as Hrep.
  destruct (replace_first r _ (tree mw)) as [tr|]; simpl in Hrep.
  - destruct Hrep as (n1 & node & n2 & Hn & Hd & Hall & Hrefs).
    pose proof (save_data_same_objects h (recalculate_folder_counts h (set_tree tr mw)))
      as (Hsame & Htree & Hroot & _).
    pose proof (recalculate_folder_counts_refs h (set_tree tr mw)) as Hrc.
    destruct (save_data _ _) as [h2 mw2]. simpl in *.
    split_and!; try done.
    + split; [intros _|done].
      rewrite <- tree_nodes_refs, Hn, !map_app, item_nodes_refs, item_refs_eq, Hd.
      apply elem_of_app. right. apply elem_of_cons. by left.
    + intros _. exists n1, node, n2. split_and!; try done.
      * by rewrite Htree, Hrc, Hrefs, map_app.
      * by rewrite Hroot, Htree.
  - simpl. split_and!; done.
Qed.

(** X12. [rename_item_by_reference] answers [True] exactly when some tree
    item carries the object. On [False] nothing changes; on [True] the
    tree keeps its items in their order and no object loses its data. *)
Theorem rename_item_by_reference_keeps (h : Heap) (mw : MainWindow) (r : ref)
    (new_name : string) :
  let res := rename_item_by_reference h mw r new_name in
  (res.1.1 = true ↔ r ∈ tree_refs (tree mw))
  ∧ (res.1.1 = false → res.1.2 = h ∧ res.2 = mw)
  ∧ tree_refs (tree res.2) = tree_refs (tree mw)
  ∧ same_objects h res.1.2.
Proof.
  intros res. subst res.
  pose proof (rename_item_same_objects h mw r new_name) as Hsame.
  unfold rename_item_by_reference in *.
  set (k := λ t, [set_text0 _ t]) in *.
  pose proof (replace_first_replaced r k (tree mw)) as Hrep.
  destruct (replace_first r k (tree mw)) as [tr|]; simpl in Hrep.
  - destruct Hrep as (n1 & node & n2 & Hn & Hd & Hall & Hrefs).
    pose proof (save_data_same_objects (alter (set_name new_name) r h) (set_tree tr mw))
      as (_ & Htree & _).
    destruct (save_data _ _) as [h2 mw2]. simpl in *.
    assert (Hin : tree_refs (tree mw) = map ti_data n1 ++ item_refs node ++ map ti_data n2).
    { by rewrite <- tree_nodes_refs, Hn, !map_app, item_nodes_refs. }
    split_and!; try done.
    + split; [intros _|done]. rewrite Hin, item_refs_eq, Hd.
      apply elem_of_app. right. apply elem_of_cons. by left.
    + rewrite Htree, Hrefs, Hin. subst k. unfold tree_refs at 1. simpl.
      rewrite app_nil_r. by destruct node.
  - simpl. split_and!; done.
Qed.

(** ** The session list and the tree *)

Lemma replace_below_leaf r k t : ti_children t = [] → replace_below r k t = None.
Proof. destruct t; simpl. by intros ->. Qed.

Lemma replace_first_has_leaf r k cs cs' r' :
  replace_first r k cs = Some cs' →
  (r' = r → ∀ t, ti_data t = r → ti_children t = [] → has_leaf r (k t)) →
  has_leaf r' cs → has_leaf r' cs'.
Proof.
  intros Hcs Hk (t & Hin & Hd & Hleaf). revert cs' Hcs.
  induction cs as [|c cs IH]; intros cs' Hcs; [by apply elem_of_nil in Hin|].
  simpl in Hcs. case_decide as Hr.
  - simplify_eq. apply elem_of_cons in Hin as [->|Hin].
    + destruct (Hk eq_refl c eq_refl Hleaf) as (t' & Hin' & ? & ?).
      exists t'. split; [|done]. apply elem_of_app. by left.
    + exists t. split; [|done]. apply elem_of_app. by right.
  - destruct (replace_below r k c) as [c'|] eqn:Ec.
    + simplify_eq. apply elem_of_cons in Hin as [->|Hin].
      * by rewrite replace_below_leaf in Ec.
      * exists t. split; [|done]. apply elem_of_cons. by right.
    + destruct (replace_first r k cs) as [cs''|]; simplify_eq/=.
      apply elem_of_cons in Hin as [->|Hin].
      * exists c. split; [|done]. apply elem_of_cons. by left.
      * destruct (IH Hin _ eq_refl) as (t' & Hin' & ? & ?).
        exists t'. split; [|done]. apply elem_of_cons. by right.
Qed.

Lemma process_item_has_leaf h r cs :
  has_leaf r cs → has_leaf r (map (process_item h) cs).
Proof.
  intros (t & Hin & Hd & Hleaf). exists (process_item h t).
  split; [by apply list_elem_of_fmap_2|].
  destruct t as [text0 text1 data expanded children]. simpl in *. subst children.
  by destruct (h !! data) as [[]|].
Qed.

Lemma remove_item_has_leaf h mw r r' :
  r' ≠ r → has_leaf r' (tree mw) →
  has_leaf r' (tree (remove_item_by_reference h mw r).2).
Proof.
  intros Hne Hleaf. unfold remove_item_by_reference.
  destruct (replace_first r _ (tree mw)) as [tr|] eqn:Er; [|done].
  pose proof (save_data_same_objects h (recalculate_folder_counts h (set_tree tr mw)))
    as (_ & Htree & _).
  destruct (save_data _ _) as [h2 mw2]. simpl in *. rewrite Htree.
  apply process_item_has_leaf. by eapply replace_first_has_leaf.
Qed.

Lemma remove_item_false h mw r :
  (remove_item_by_reference h mw r).1.1 = false →
  remove_item_by_reference h mw r = (false, h, mw).
Proof.
  unfold remove_item_by_reference. destruct (replace_first _ _ _); [|done].
  by destruct (save_data _ _).
Qed.

Lemma rename_item_has_leaf h mw r s r' :
  has_leaf r' (tree mw) →
  has_leaf r' (tree (rename_item_by_reference h mw r s).2).
Proof.
  intros Hleaf. unfold rename_item_by_reference.
  destruct (replace_first r _ (tree mw)) as [tr|] eqn:Er; [|done].
  pose proof (save_data_same_objects (alter (set_name s) r h) (set_tree tr mw))
    as (_ & Htree & _).
  destruct (save_data _ _) as [h2 mw2]. simpl in *. rewrite Htree.
  eapply replace_first_has_leaf; [done| |done].
  intros _ t Hd Hl. eexists. split; [apply list_elem_of_singleton; reflexivity|].
  by destruct t.
Qed.

Lemma append_has_leaf h mw r it tree_item :
  create_tree_item r it = Some tree_item →
  ∀ r' rs, (∀ x, x ∈ rs → has_leaf x (tree mw)) → r' ∈ rs ++ [r] →
  has_leaf r' (tree (save_data h (set_tree (tree mw ++ [tree_item]) mw)).2).
Proof.
  intros Hc r' rs Hrs Hin.
  pose proof (save_data_same_objects h (set_tree (tree mw ++ [tree_item]) mw))
    as (_ & Htree & _).
  rewrite Htree. simpl.
  apply elem_of_app in Hin as [Hin| ->%list_elem_of_singleton].
  - destruct (Hrs _ Hin) as (t & ? & ? & ?). exists t. split; [|done].
    apply elem_of_app. by left.
  - exists tree_item. split.
    + apply elem_of_app. right. by apply list_elem_of_singleton.
    + unfold create_tree_item in Hc. destruct it as [c|m|f]; [| |done].
      * by simplify_eq.
      * destruct (Py.to_int (mi_distance m)); by simplify_eq/=.
Qed.

Lemma session_shown_overlay w f :
  session_items (f (overlay w)) = session_items (overlay w) →
  session_shown w → session_shown (with_overlay f w).
Proof. intros Hs Hw r Hr. simpl in *. rewrite Hs in Hr. by apply Hw. Qed.

Lemma finish_ruler_session_shown e pos w w' :
  session_shown w → finish_ruler e pos w = Some w' → session_shown w'.
Proof.
  intros Hw H. unfold finish_ruler in H.
  destruct (ruler_start (overlay w)) as [start|]; [|by simplify_eq].
  destruct (isNull start); [by simplify_eq|].
  destruct (euclid _ _ _ _) as [dist|]; [simpl in H|done].
  destruct (add_measurement _ _ _ _ _ _ _ _ _) as [[[item h] mw]|] eqn:Ea;
    [simpl in H|done].
  destruct (Py.to_int dist); [simpl in H|done]. simplify_eq.
  apply add_measurement_result in Ea as (m & ti & _ & Hti & -> & -> & ->).
  intros r Hr. simpl in Hr. simpl.
  eapply append_has_leaf; [exact Hti|apply Hw|exact Hr].
Qed.

Lemma mousePressEvent_session_shown e button pos w w' :
  session_shown w → mousePressEvent e button pos w = Some w' → session_shown w'.
Proof.
  intros Hw H. unfold mousePressEvent in H.
  destruct (capture_mode (overlay w)) eqn:Hmode.
  - destruct button; [| |by simplify_eq].
    + destruct (add_coordinate_result (heap w) (main_window w)
                  (px (cursor_pos (overlay w))) (py (cursor_pos (overlay w)))
                  (now_iso e)) as (ti & Hti & Ea).
      rewrite Ea in H. simpl in H. simplify_eq.
      intros r Hr. simpl in Hr. simpl.
      eapply append_has_leaf; [exact Hti|apply Hw|exact Hr].
    + simplify_eq. by apply session_shown_overlay.
  - destruct button; [| |by simplify_eq]; by eapply finish_ruler_session_shown.
  - destruct button; try by simplify_eq.
    unfold select_nearest_item in H.
    destruct (mapM _ _); [simpl in H|done].
    destruct (nearest_index _ _); [simpl in H|done]. simplify_eq.
    by apply session_shown_overlay.
Qed.

Lemma NoDup_delete_lookup {A} (l : list A) i x :
  NoDup l → l !! i = Some x → x ∉ delete i l.
Proof.
  intros Hnd Hi. rewrite <- (take_drop_middle l i x Hi) in Hnd.
  rewrite delete_take_drop.
  apply NoDup_app in Hnd as (_ & Hl & Hr%NoDup_cons).
  intros [Hin|Hin]%elem_of_app.
  - apply (Hl _ Hin). by left.
  - by destruct Hr.
Qed.

Lemma keyPressEvent_session_shown e key w w' :
  NoDup (session_items (overlay w)) →
  session_shown w → keyPressEvent e key w = Some w' → session_shown w'.
Proof.
  intros Hnd Hw H. unfold keyPressEvent in H.
  set (w1 := match key with Key_Shift => _ | _ => _ end) in H.
  assert (Hw1 : session_shown w1 ∧ NoDup (session_items (overlay w1))).
  { subst w1. destruct key; try done; try (by split; [apply session_shown_overlay|]);
      destruct (capture_mode (overlay w));
      try (by split; [apply session_shown_overlay|]); by split. }
  destruct Hw1 as [Hw1 Hnd1]. clearbody w1. case_decide; [|by simplify_eq].
  destruct key; try by simplify_eq.
  - unfold delete_current_selection in H.
    destruct (py_getitem _ _) as [item|] eqn:Eg; [simpl in H|done].
    pose proof (λ r', remove_item_has_leaf (heap w1) (main_window w1) item r') as Hs.
    pose proof (remove_item_false (heap w1) (main_window w1) item) as Hf.
    destruct (remove_item_by_reference _ _ _) as [[[] h] mw]; simpl in Hs, Hf.
    + destruct (py_delitem _ _) as [items|] eqn:Ed; [simpl in H|done]. simplify_eq.
      unfold py_getitem, py_delitem in *.
      destruct (py_index _ _) as [i|]; simplify_eq/=.
      intros r Hr. simpl in *. apply Hs.
      * intros ->. by eapply NoDup_delete_lookup.
      * apply Hw1. eapply elem_of_sublist; [done|apply sublist_delete].
    + specialize (Hf eq_refl). simplify_eq. intros r Hr. by apply Hw1.
  - unfold rename_current_selection in H.
    destruct (py_getitem _ _) as [item|]; [simpl in H|done].
    destruct (prompt e) as [text ok].
    destruct (ok && negb (text =? "")%string).
    + pose proof (λ r', rename_item_has_leaf (heap w1) (main_window w1) item text r')
        as Hs.
      destruct (rename_item_by_reference _ _ _ _) as [[? h] mw]. simplify_eq.
      intros r Hr. simpl in *. apply Hs. by apply Hw1.
    + simplify_eq. intros r Hr. simpl in *. by apply Hw1.
Qed.

Lemma reachable_session_shown w : reachable w → session_shown w.
Proof.
  induction 1 as [h mw|w e ev w' Hw IH Hstep].
  - intros r Hr. by apply elem_of_nil in Hr.
  - destruct ev; simpl in Hstep.
    + simplify_eq. by apply session_shown_overlay.
    + by eapply mousePressEvent_session_shown.
    + eapply keyPressEvent_session_shown; [|done..].
      by apply reachable_session_live.
    + simplify_eq. destruct key; try done; by apply session_shown_overlay.
    + simplify_eq. by apply session_shown_overlay.
Qed.

Lemma has_leaf_tree_refs r cs : has_leaf r cs → r ∈ tree_refs cs.
Proof.
  intros (t & Hin & <- & _). induction cs as [|c cs IH]; [by apply elem_of_nil in Hin|].
  rewrite tree_refs_cons, item_refs_eq. apply elem_of_cons in Hin as [->|Hin].
  - by left.
  - apply elem_of_app. right. by apply IH.
Qed.

Lemma replace_first_found r k cs : r ∈ tree_refs cs → is_Some (replace_first r k cs).
Proof.
  intros Hin. pose proof (replace_first_replaced r k cs) as H.
  destruct (replace_first r k cs); [done|]. by destruct H.
Qed.

(** X13. In a capture run every object of the session list has a childless
    item at the top level of the history tree. *)
Theorem session_items_shown (w : World) (r : ref) :
  reachable w → r ∈ session_items (overlay w) →
  ∃ t, t ∈ tree (main_window w) ∧ ti_data t = r ∧ ti_children t = [].
Proof.
  intros Hw. revert r. change (session_shown w).
  induction Hw as [h mw|w e ev w' Hw IH Hstep].
  - intros r Hr. by apply elem_of_nil in Hr.
  - destruct ev; simpl in Hstep.
    + simplify_eq. by apply session_shown_overlay.
    + by eapply mousePressEvent_session_shown.
    + eapply keyPressEvent_session_shown; [|done..].
      by apply reachable_session_live.
    + simplify_eq. destruct key; try done; by apply session_shown_overlay.
    + simplify_eq. by apply session_shown_overlay.
Qed.

(** X14. In a capture run, Delete in the edit mode with an item selected
    always finds the item in the tree: the object leaves the session
    list, the selection is cleared and "Item Deleted" is shown. *)
Theorem delete_in_run (e : Env) (w : World) :
  reachable w →
  capture_mode (overlay w) = edit →
  selected_item_index (overlay w) ≠ -1 →
  let i := Z.to_nat (selected_item_index (overlay w)) in
  ∃ w' r,
    keyPressEvent e Key_Delete w = Some w'
    ∧ session_items (overlay w) !! i = Some r
    ∧ session_items (overlay w') = delete i (session_items (overlay w))
    ∧ (r ∉ session_items (overlay w'))
    ∧ selected_item_index (overlay w') = -1
    ∧ capture_mode (overlay w') = edit
    ∧ notifications (overlay w')
        = notifications (overlay w) ++ [("Item Deleted", Py.add (now e) (Py.PInt 2))].
Proof.
  intros Hw Hmode Hsel i.
  pose proof (reachable_selection_ok w Hw) as [[?|Hrange] _]; [done|].
  pose proof (reachable_session_live w Hw) as [Hnd _].
  pose proof (reachable_session_shown w Hw) as Hshown.
  destruct (py_index_valid _ _ Hrange) as (r & Hget & Hi & Hdel).
  unfold keyPressEvent. simpl. rewrite decide_True by done.
  unfold delete_current_selection. rewrite Hget. simpl.
  unfold remove_item_by_reference.
  destruct (replace_first_found r (λ _, []) (tree (main_window w))) as [tr ->].
  { apply has_leaf_tree_refs, Hshown. by eapply list_elem_of_lookup_2. }
  destruct (save_data _ _) as [h2 mw2]. rewrite Hdel. simpl.
  eexists _, r. split_and!; try done. simpl.
  by apply NoDup_delete_lookup.
Qed.

Lemma delete_in_run_witness :
  ∃ w, run [(sample_env, MousePress LeftButton (mkQPoint 5 7));
            (sample_env, KeyPress Key_E);
            (sample_env, MousePress LeftButton (mkQPoint 0 0))]
           (start_capture ∅ empty_main_window) = Some w
       ∧ ∃ w', keyPressEvent sample_env Key_Delete w = Some w'
               ∧ session_items (overlay w') = []
               ∧ selected_item_index (overlay w') = -1.
Proof.
  eexists. split; [vm_compute; reflexivity|].
  lazymatch goal with
  | |- ∃ w', keyPressEvent _ _ ?w = _ ∧ _ =>
      destruct (delete_in_run sample_env w) as (w' & r & Hk & _ & Hd & _ & Hs & _)
  end.
  - apply (reachable_run
             [(sample_env, MousePress LeftButton (mkQPoint 5 7));
              (sample_env, KeyPress Key_E);
              (sample_env, MousePress LeftButton (mkQPoint 0 0))]
             (start_capture ∅ empty_main_window));
      [apply reachable_start|vm_compute; reflexivity].
  - reflexivity.
  - done.
  - exists w'. split_and!; [exact Hk| |exact Hs]. rewrite Hd. reflexivity.
Defined.

Lemma session_items_shown_witness :
  ∃ w, run [(sample_env, MousePress LeftButton (mkQPoint 5 7));
            (sample_env, MousePress RightButton (mkQPoint 10 10));
            (sample_env, MousePress LeftButton (mkQPoint 40 50))]
           (start_capture ∅ empty_main_window) = Some w
       ∧ session_items (overlay w) = [1%positive; 2%positive]
       ∧ ∃ t, t ∈ tree (main_window w) ∧ ti_data t = 2%positive ∧ ti_children t = [].
Proof.
  eexists. split; [vm_compute; reflexivity|]. split; [reflexivity|].
  apply session_items_shown.
  - apply (reachable_run
             [(sample_env, MousePress LeftButton (mkQPoint 5 7));
              (sample_env, MousePress RightButton (mkQPoint 10 10));
              (sample_env, MousePress LeftButton (mkQPoint 40 50))]
             (start_capture ∅ empty_main_window));
      [apply reachable_start|vm_compute; reflexivity].
  - apply elem_of_cons. right. apply elem_of_cons. by left.
Defined.

(** X15. Rename in the edit mode, confirmed with a text that is not empty:
    "Item Renamed" is shown whatever the host answers. Where no tree
    item carries the selected object, the objects and the main window
    are as before, and the notification is shown all the same. *)
Theorem rename_notifies_always (e : Env) (w : World) (i : nat) (item : ref)
    (text : string) :
  capture_mode (overlay w) = edit →
  selected_item_index (overlay w) = Z.of_nat i →
  session_items (overlay w) !! i = Some item →
  prompt e = (text, true) →
  text ≠ "" →
  ∃ w', keyPressEvent e Key_R w = Some w'
    ∧ heap w' = (rename_item_by_reference (heap w) (main_window w) item text).1.2
    ∧ main_window w' = (rename_item_by_reference (heap w) (main_window w) item text).2
    ∧ overlay w' = add_notification e "Item Renamed" (set_keyboard_grabbed true (overlay w))
    ∧ (item ∉ tree_refs (tree (main_window w)) →
         heap w' = heap w ∧ main_window w' = main_window w).
Proof.
  intros Hmode Hsel Hitem Hprompt Htext.
  unfold keyPressEvent. simpl. rewrite decide_True by (rewrite Hsel; split; [done|lia]).
  unfold rename_current_selection. rewrite Hsel.
  destruct (py_getitem_nat _ _ _ Hitem) as [-> _]. simpl. rewrite Hprompt.
  assert ((text =? "")%string = false) as -> by by apply String.eqb_neq.
  simpl.
  pose proof (replace_first_replaced item
                (λ t, [set_text0 (rename_prefix (heap w !! item) +:+ text) t])
                (tree (main_window w))) as Hrep.
  unfold rename_item_by_reference.
  destruct (replace_first _ _ _) as [tr|]; simpl in Hrep.
  - destruct (save_data _ _) as [h2 mw2]. eexists. split_and!; try done.
    intros Hnot. destruct Hrep as (n1 & node & n2 & Hn & Hd & _).
    destruct Hnot. rewrite <- tree_nodes_refs, Hn, !map_app, item_nodes_refs,
      item_refs_eq, Hd.
    apply elem_of_app. right. apply elem_of_cons. by left.
  - eexists. split_and!; done.
Qed.

Lemma rename_notifies_always_witness :
  ∃ w', keyPressEvent
          {| now_iso := ""; now := Py.PInt 0; prompt := ("A", true) |} Key_R
          (mkWorld (heap sample_edit_world) empty_main_window
                   (overlay sample_edit_world)) = Some w'
    ∧ heap w' = heap sample_edit_world
    ∧ main_window w' = empty_main_window
    ∧ notifications (overlay w') = [("Item Renamed", Py.PInt 2)].
Proof.
  destruct (rename_notifies_always
              {| now_iso := ""; now := Py.PInt 0; prompt := ("A", true) |}
              (mkWorld (heap sample_edit_world) empty_main_window
                       (overlay sample_edit_world)) 0 1%positive "A")
    as (w' & Hw' & _ & _ & Ho & Hnot); [reflexivity..|done|].
  destruct Hnot as [Hh Hmw]; [apply not_elem_of_nil|].
  exists w'. split_and!; [exact Hw'|exact Hh|exact Hmw|]. rewrite Ho. reflexivity.
Defined.

(** ** The tree after a drop *)

















(** ** Names typed in the tree *)

Lemma strip_None p s : strip_prefix p s = None → strip p s = s.
Proof. unfold strip. by intros ->. Qed.

(** X18. A name typed in the tree that starts with none of the three
    prefixes: the item shows it behind the prefix of its class, the
    editor opens with it again, the save stores it as the object's name,
    and confirming the editor unchanged leaves the text as it is. *)
Theorem typed_name_round_trip (data : Item) (s : string) :
  strip_prefix prefix_coordinate s = None →
  strip_prefix prefix_measurement s = None →
  strip_prefix prefix_folder s = None →
  setModelData data s = class_prefix data +:+ s
  ∧ setEditorData (setModelData data s) = s
  ∧ clean_name (setModelData data s) = s
  ∧ setModelData data (setEditorData (setModelData data s)) = setModelData data s.
Proof.
  intros Hc Hm Hf.
  assert (Ht : setModelData data s = class_prefix data +:+ s).
  { unfold setModelData. destruct data; simpl class_prefix; by rewrite ?Hc, ?Hm, ?Hf. }
  assert (He : setEditorData (class_prefix data +:+ s) = s).
  { by destruct data. }
  rewrite Ht, He. split_and!; try done.
  unfold clean_name. destruct data; cbn [class_prefix].
  - change (strip prefix_coordinate (prefix_coordinate +:+ s)) with s.
    by rewrite (strip_None _ s Hm), (strip_None _ s Hf).
  - change (strip prefix_coordinate (prefix_measurement +:+ s))
      with (prefix_measurement +:+ s).
    change (strip prefix_measurement (prefix_measurement +:+ s)) with s.
    by rewrite (strip_None _ s Hf).
  - change (strip prefix_coordinate (prefix_folder +:+ s)) with (prefix_folder +:+ s).
    change (strip prefix_measurement (prefix_folder +:+ s)) with (prefix_folder +:+ s).
    done.
Qed.

Lemma typed_name_round_trip_witness :
  setModelData (IMeasurement (mkMeasurementItem 0 0 3 4 (Py.PInt 5) "" "" false))
               "width" = "📏 width"
  ∧ clean_name "📏 width" = "width".
Proof.
  destruct (typed_name_round_trip
              (IMeasurement (mkMeasurementItem 0 0 3 4 (Py.PInt 5) "" "" false))
              "width") as (H1 & _ & H3 & _); [reflexivity..|].
  split; [exact H1|]. rewrite H1 in H3. exact H3.
Defined.

(** ** Saving twice *)

Lemma apply_no_patch it : apply_patch no_patch it = it.
Proof. by destruct it as [[]|[]|[]]. Qed.

Lemma apply_patch_after q p it :
  apply_patch (patch_after q p) it = apply_patch q (apply_patch p it).
Proof. by destruct it, q as [[] [] []], p as [[] [] []]. Qed.

Lemma apply_patch_twice p it : apply_patch p (apply_patch p it) = apply_patch p it.
Proof. by destruct it, p as [[] [] []]. Qed.

Lemma apply_patch_is_folder p it :
  is_folder (Some (apply_patch p it)) = is_folder (Some it).
Proof. by destruct it. Qed.

Lemma patched_after P Q h h' h'' :
  patched P h h' → patched Q h' h'' → patched (λ r, patch_after (Q r) (P r)) h h''.
Proof.
  intros HP HQ r. rewrite HQ, HP. destruct (h !! r); [simpl|done].
  by rewrite apply_patch_after.
Qed.

Lemma patched_is_folder P h h' r :
  patched P h h' → is_folder (h' !! r) = is_folder (h !! r).
Proof.
  intros HP. rewrite HP. destruct (h !! r); [simpl|done]. apply apply_patch_is_folder.
Qed.

Lemma patched_twice P h h' h'' : patched P h h' → patched P h' h'' → h'' = h'.
Proof.
  intros H1 H2. apply map_eq. intros r. rewrite H2, H1.
  destruct (h !! r); [simpl|done]. by rewrite apply_patch_twice.
Qed.

Lemma patched_alter (f : Item → Item) p data h :
  (∀ it, h !! data = Some it → f it = apply_patch p it) →
  patched (patch_at data p) h (alter f data h).
Proof.
  intros Hf r. unfold patch_at. case_decide as Hr.
  - subst r. rewrite lookup_alter_eq. destruct (h !! data) as [it|]; [simpl|done].
    by rewrite Hf.
  - rewrite lookup_alter_ne by done. destruct (h !! r); [simpl|done].
    by rewrite apply_no_patch.
Qed.

Lemma serialize_tree_patches c cs :
  Forall (λ t, fixed_patches c (λ h, (serialize_item h t).1)) cs →
  fixed_patches c (λ h, (_serialize_tree h cs).1).
Proof.
  induction 1 as [|t cs [P HP] _ [Q HQ]].
  - exists (λ _, no_patch). intros h _ r. simpl.
    destruct (h !! r); [simpl|done]. by rewrite apply_no_patch.
  - exists (λ r, patch_after (Q r) (P r)). intros h Hc. simpl.
    specialize (HP h Hc). destruct (serialize_item h t) as [h' r'].
    assert (Hc' : ∀ r, is_folder (h' !! r) = c r).
    { intros r. by rewrite (patched_is_folder P h h' r HP). }
    specialize (HQ h' Hc'). destruct (_serialize_tree h' cs) as [h'' rs].
    by eapply patched_after.
Qed.

Lemma serialize_item_patches c t : fixed_patches c (λ h, (serialize_item h t).1).
Proof.
  induction t as [text0 text1 data expanded children IH] using TreeItem_forall_ind.
  apply serialize_tree_patches in IH as [Q HQ].
  destruct (c data) eqn:Ec.
  - exists (λ r, patch_after
                   (patch_at data (mkPatch None None (Some (map ti_data children))) r)
                   (patch_after (Q r)
                      (patch_at data
                         (mkPatch (Some (clean_name text0)) (Some expanded) None) r))).
    intros h Hc. rewrite serialize_item_unfold.
    pose proof (Hc data) as Hd. rewrite Ec in Hd.
    destruct (h !! data) as [[| |f]|] eqn:Ef; try done.
    cbv zeta. set (h1 := alter _ data h).
    assert (H1 : patched (patch_at data
                            (mkPatch (Some (clean_name text0)) (Some expanded) None))
                   h h1).
    { apply patched_alter. intros it Hit. by simplify_eq. }
    assert (Hc1 : ∀ r, is_folder (h1 !! r) = c r).
    { intros r. by rewrite (patched_is_folder _ h h1 r H1). }
    specialize (HQ h1 Hc1).
    pose proof (serialize_tree_refs children h1) as Hrefs.
    destruct (_serialize_tree h1 children) as [h2 items]. cbn [fst snd] in *.
    subst items.
    eapply patched_after; [by eapply patched_after|].
    apply patched_alter. intros it Hit.
    pose proof (patched_is_folder _ _ _ data (patched_after _ _ _ _ _ H1 HQ)) as Hf2.
    rewrite Hit, Ef in Hf2. by destruct it.
  - exists (patch_at data (mkPatch (Some (clean_name text0)) None None)).
    intros h Hc. rewrite serialize_item_unfold.
    pose proof (Hc data) as Hd. rewrite Ec in Hd.
    assert (H1 : patched (patch_at data (mkPatch (Some (clean_name text0)) None None))
                   h (alter (set_name (clean_name text0)) data h)).
    { apply patched_alter. intros it _. by destruct it. }
    by destruct (h !! data) as [[| |f]|].
Qed.

Lemma serialize_item_without_detail t : ∀ h,
  serialize_item h (without_detail t) = serialize_item h t.
Proof.
  induction t as [text0 text1 data expanded children IH] using TreeItem_forall_ind.
  assert (Hcs : ∀ h1, _serialize_tree h1 (map without_detail children)
                      = _serialize_tree h1 children).
  { induction IH as [|c cs Hc _ IHcs]; intros h1; [done|]. cbn [map _serialize_tree].
    rewrite Hc. destruct (serialize_item h1 c) as [h' r]. by rewrite IHcs. }
  intros h. cbn [without_detail]. rewrite !serialize_item_unfold.
  destruct (h !! data) as [[| |f]|]; try done.
  cbv zeta. by rewrite Hcs.
Qed.

Lemma serialize_tree_without_detail cs : ∀ h,
  _serialize_tree h (map without_detail cs) = _serialize_tree h cs.
Proof.
  induction cs as [|c cs IH]; intros h; [done|]. cbn [map _serialize_tree].
  rewrite serialize_item_without_detail. destruct (serialize_item h c) as [h' r].
  by rewrite IH.
Qed.

Lemma serialize_tree_twice h cs :
  _serialize_tree (_serialize_tree h cs).1 cs = _serialize_tree h cs.
Proof.
  destruct (serialize_tree_patches (λ r, is_folder (h !! r)) cs) as [P HP].
  { apply Forall_forall. intros t _. apply serialize_item_patches. }
  pose proof (HP h (λ r, eq_refl)) as H1.
  pose proof (HP (_serialize_tree h cs).1 (λ r, patched_is_folder _ _ _ r H1)) as H2.
  pose proof (patched_twice _ _ _ _ H1 H2) as Hh.
  pose proof (serialize_tree_refs cs h) as R1.
  pose proof (serialize_tree_refs cs (_serialize_tree h cs).1) as R2.
  destruct (_serialize_tree h cs) as [h1 r1]. cbn [fst snd] in *.
  destruct (_serialize_tree h1 cs) as [h2 r2]. cbn [fst snd] in *. by subst.
Qed.

(** X19. A save that follows a save of the same tree, or of a tree that
    differs from it in the detail texts only, gives what it gives
    alone: saving twice is saving once. *)
Theorem save_data_twice (h : Heap) (mw1 mw2 : MainWindow) :
  map without_detail (tree mw1) = map without_detail (tree mw2) →
  save_data (save_data h mw1).1 mw2 = save_data h mw2.
Proof.
  intros Htree. unfold save_data.
  rewrite <- (serialize_tree_without_detail (tree mw1)), Htree,
    serialize_tree_without_detail.
  pose proof (serialize_tree_twice h (tree mw2)) as H.
  destruct (_serialize_tree h (tree mw2)) as [h1 r1]. cbn [fst] in *.
  by rewrite H.
Qed.

Lemma save_data_twice_witness :
  let h := heap sample_edit_world in
  let mw := main_window sample_edit_world in
  let mw1 := set_tree [TreeNode "📍 Corner" "" 1%positive false []] mw in
  let mw2 := set_tree [TreeNode "📍 Corner" "(5, 7)" 1%positive false []] mw in
  save_data (save_data h mw1).1 mw2 = save_data h mw2
  ∧ (save_data h mw2).1
    = {[ 1%positive := ICoordinate (mkCoordinateItem 5 7 "Corner" "") ]}.
Proof.
  intros h mw mw1 mw2. split; [|reflexivity].
  apply (save_data_twice h mw1 mw2). reflexivity.
Defined.

(** ** The data file read back *)

Lemma Stored_forall_ind (P : Stored → Prop) :
  (∀ c, P (SCoordinate c)) →
  (∀ m, P (SMeasurement m)) →
  (∀ name timestamp expanded items,
     Forall P items → P (SFolder name timestamp expanded items)) →
  ∀ s, P s.
Proof.
  intros Hc Hm Hf. fix IH 1.
  intros [c|m|name timestamp expanded items]; [apply Hc|apply Hm|].
  apply Hf. induction items as [|s items IHitems]; constructor; [apply IH|assumption].
Qed.

Lemma str_or_some s d : negb (String.eqb s "") = true → str_or (Some s) d = s.
Proof. by destruct s. Qed.

Lemma parse_item_folder now name timestamp expanded items :
  parse_item now (to_dict (SFolder name timestamp expanded items))
  = result_bind (_parse_items now (map to_dict items)) (λ items',
      Ok [SFolder (str_or (Some name) "New Folder") (str_or (Some timestamp) now)
                  expanded items']).
Proof.
  cbn [to_dict]. set (js := map to_dict items). simpl.
  assert (H : ∀ l,
    (fix parse_list (l : list Json) : result (list Stored) :=
       match l with
       | [] => Ok []
       | j' :: l' =>
           result_bind (parse_item now j') (λ x,
           result_bind (parse_list l') (λ xs, Ok (x ++ xs)))
       end) l = _parse_items now l).
  { induction l as [|j l IH]; [done|]. simpl. by rewrite IH. }
  by rewrite H.
Qed.

Lemma parse_items_named now xs :
  Forall (λ s, named s = true → parse_item now (to_dict s) = Ok [s]) xs →
  forallb named xs = true → _parse_items now (map to_dict xs) = Ok xs.
Proof.
  induction 1 as [|s xs Hs _ IH]; [done|]. cbn [forallb map _parse_items].
  intros [H1 H2]%andb_true_iff. by rewrite Hs, IH.
Qed.

Lemma parse_item_named now s : named s = true → parse_item now (to_dict s) = Ok [s].
Proof.
  induction s as [c|m|name timestamp expanded items IH] using Stored_forall_ind.
  - by destruct c as [x y [|a name] [|b timestamp]].
  - by destruct m as [x1 y1 x2 y2 distance [|a name] [|b timestamp] auto_aligned].
  - cbn [named]. intros [[H1 H2]%andb_true_iff H3]%andb_true_iff.
    rewrite parse_item_folder, (parse_items_named now items IH H3).
    cbn [result_bind]. by rewrite !str_or_some.
Qed.

(** X20. What [to_dict] writes of items whose names and timestamps are not
    empty, [_parse_items] reads back as the same items, folders with the
    items below them. *)
Theorem saved_items_load_back (now : string) (xs : list Stored) :
  forallb named xs = true →
  _parse_items now (map to_dict xs) = Ok xs.
Proof.
  apply parse_items_named, Forall_forall. intros s _. apply parse_item_named.
Qed.

Lemma saved_items_load_back_witness :
  let p := SCoordinate (mkCoordinateItem 5 7 "Corner" "2024-01-01T00:00:00") in
  let m := SMeasurement (mkMeasurementItem 0 0 3 4 (Py.PFloat f5) "Width"
                           "2024-01-01T00:00:01" false) in
  let xs := [SFolder "Window" "2024-01-01T00:00:02" true [p; m]; p] in
  _parse_items "2024-02-02T00:00:00" (map to_dict xs) = Ok xs.
Proof.
  intros p m xs. apply (saved_items_load_back "2024-02-02T00:00:00" xs). reflexivity.
Defined.

(** X21. An item saved with the empty name, as after a rename to the empty
    text in the tree, is read back under the default name of its
    class. *)
Theorem empty_name_loads_default (now : string) (c : CoordinateItem)
    (m : MeasurementItem) (n : Z) (timestamp : string) (expanded : bool)
    (items : list Stored) :
  ci_name c = "" → ci_timestamp c ≠ "" →
  mi_name m = "" → mi_timestamp m ≠ "" → Py.to_int (mi_distance m) = Some n →
  timestamp ≠ "" → forallb named items = true →
  _parse_items now [to_dict (SCoordinate c)]
  = Ok [SCoordinate
          (mkCoordinateItem (ci_x c) (ci_y c)
             ("Point (" +:+ pretty (ci_x c) +:+ ", " +:+ pretty (ci_y c) +:+ ")")
             (ci_timestamp c))]
  ∧ _parse_items now [to_dict (SMeasurement m)]
    = Ok [SMeasurement
            (mkMeasurementItem (mi_x1 m) (mi_y1 m) (mi_x2 m) (mi_y2 m) (mi_distance m)
               ("Measurement " +:+ pretty n +:+ "px") (mi_timestamp m)
               (mi_auto_aligned m))]
  ∧ _parse_items now [to_dict (SFolder "" timestamp expanded items)]
    = Ok [SFolder "New Folder" timestamp expanded items].
Proof.
  intros Hc Hct Hm Hmt Hn Ht Hitems. split_and!.
  - destruct c as [x y name ts]. simpl in *. subst name.
    unfold CoordinateItem_init. simpl. by destruct ts.
  - destruct m as [x1 y1 x2 y2 distance name ts auto_aligned].
    simpl in *. subst name. unfold MeasurementItem_init. rewrite Hn. simpl.
    by destruct ts.
  - cbn [_parse_items]. rewrite parse_item_folder, parse_items_named; [|..|done].
    + simpl. by destruct timestamp.
    + apply Forall_forall. intros s _. apply parse_item_named.
Qed.

Lemma empty_name_loads_default_witness :
  _parse_items "2024-02-02T00:00:00"
    [to_dict (SCoordinate (mkCoordinateItem 5 7 "" "2024-01-01T00:00:00"))]
  = Ok [SCoordinate (mkCoordinateItem 5 7 "Point (5, 7)" "2024-01-01T00:00:00")].
Proof.
  destruct (empty_name_loads_default "2024-02-02T00:00:00"
              (mkCoordinateItem 5 7 "" "2024-01-01T00:00:00")
              (mkMeasurementItem 0 0 3 4 (Py.PFloat f5) "" "2024-01-01T00:00:01" false)
              5 "2024-01-01T00:00:02" true []) as (H & _); try done.
Defined.

(** ** Objects outside the tree *)

Lemma serialize_tree_untouched r cs :
  Forall (λ t, ∀ h, r ∉ item_refs t → (serialize_item h t).1 !! r = h !! r) cs →
  ∀ h, r ∉ tree_refs cs → (_serialize_tree h cs).1 !! r = h !! r.
Proof.
  induction 1 as [|c cs Hc _ IH]; intros h Hr; [done|].
  rewrite tree_refs_cons, not_elem_of_app in Hr. destruct Hr as [Hr1 Hr2].
  simpl. specialize (Hc h Hr1). destruct (serialize_item h c) as [h' r'].
  specialize (IH h' Hr2). destruct (_serialize_tree h' cs) as [h'' rs].
  simpl in *. congruence.
Qed.

Lemma serialize_item_untouched r t :
  ∀ h, r ∉ item_refs t → (serialize_item h t).1 !! r = h !! r.
Proof.
  induction t as [text0 text1 data expanded children IH] using TreeItem_forall_ind.
  pose proof (serialize_tree_untouched r children IH) as Hcs.
  intros h. rewrite item_refs_unfold, not_elem_of_cons. intros [Hd Hr].
  rewrite serialize_item_unfold.
  destruct (h !! data) as [[| |f]|]; cbv zeta;
    try (cbn [fst]; by rewrite lookup_alter_ne).
  specialize (Hcs (alter (set_folder_view expanded (clean_name text0)) data h) Hr).
  destruct (_serialize_tree _ children) as [h2 items]. cbn [fst] in *.
  by rewrite lookup_alter_ne, Hcs, lookup_alter_ne.
Qed.

(** X22. A save rebuilds the data model from the tree and loses nothing: no
    object comes or goes or changes its class, coordinates, distance or
    timestamp, an object no tree item carries is left as it is, the
    saved top level is the objects of the top-level items in their
    order, and the tree itself is unchanged. *)
Theorem save_data_keeps_objects (h : Heap) (mw : MainWindow) :
  same_objects h (save_data h mw).1
  ∧ (∀ r, r ∉ tree_refs (tree mw) → (save_data h mw).1 !! r = h !! r)
  ∧ tree (save_data h mw).2 = tree mw
  ∧ root_items (save_data h mw).2 = map ti_data (tree mw)
  ∧ mw_visible (save_data h mw).2 = mw_visible mw.
Proof.
  destruct (save_data_same_objects h mw) as (H1 & H2 & H3 & H4).
  split_and!; try done. intros r Hr. unfold save_data.
  assert (H : (_serialize_tree h (tree mw)).1 !! r = h !! r).
  { apply serialize_tree_untouched; [|done]. apply Forall_forall.
    intros t _ h0. apply serialize_item_untouched. }
  by destruct (_serialize_tree h (tree mw)).
Qed.
